(** * Constraint generator of the FPGA board helper (fpga/fpgaboard.py)

    A shallow embedding of [fpga_board.generate_vivado_io] and the
    properties of the constraints document it returns.

    Conventions of the embedding.
    - Python [str] values are [string]s, sequences of 8-bit characters;
      [dict]s are stdpp [gmap]s; the per-record dict literal with its
      four fixed keys is a record.
    - The function body is followed statement by statement, at the
      indentation the file has: the lookup-and-emit [if]/[else] stands at
      the level of the function body, after the second [for] loop.
    - The body runs in a small state-and-exception monad over the local
      frame and the connector map object the caller passed in.
    - [csv.reader(io.StringIO(csv_data))] belongs to the Python standard
      library.  The generator is parametric in it: a reader gives, for a
      text, the rows it yields and the exception that ends the iteration
      early, if any.  The names [csv] and [io] are taken to denote the
      standard modules.  [Csv.excel_reader] is a model of the default
      dialect, used to run the generator on concrete text. *)

From Stdlib Require Import Ascii String List NArith Lia.
From stdpp Require Import base gmap strings list.

Set Default Proof Using "Type".

(** ** Python string primitives used by the generator *)

Module Str.

(** [sep.join(l)] *)
Fixpoint join (sep : string) (l : list string) : string :=
  match l with
  | [] => EmptyString
  | x :: rest =>
      match rest with
      | [] => x
      | _ :: _ => x +:+ sep +:+ join sep rest
      end
  end.

(** [s.replace(c, '')] for a one-character [c]: every occurrence goes. *)
Fixpoint remove_char (c : ascii) (s : string) : string :=
  match s with
  | EmptyString => EmptyString
  | String a s' =>
      if Ascii.eqb a c then remove_char c s' else String a (remove_char c s')
  end.

(** Does [c] occur in [s]? *)
Fixpoint mem (c : ascii) (s : string) : bool :=
  match s with
  | EmptyString => false
  | String a s' => Ascii.eqb a c || mem c s'
  end.

(** [s.startswith(p)] *)
Fixpoint startswith (p s : string) : bool :=
  match p, s with
  | EmptyString, _ => true
  | String a p', String b s' => Ascii.eqb a b && startswith p' s'
  | String _ _, EmptyString => false
  end.

(** [s.count(p)] read with overlaps: the number of positions of [s] at
    which [p] starts. *)
Fixpoint occurrences (p s : string) : nat :=
  (if startswith p s then 1 else 0) +
  match s with
  | EmptyString => 0
  | String _ s' => occurrences p s'
  end.

(** [p in s] *)
Definition contains (p s : string) : bool := negb (occurrences p s =? 0).

Definition nl : string := String (ascii_of_nat 10) EmptyString.

End Str.

(** ** Data model *)

(** The tuple stored per connector position: [(fpga_pin, bank, pin_desc)],
    read by the source at indices 0, 1 and 2. *)
Record PinInfo := {
  fpga_pin : string;
  bank : string;
  pin_desc : string
}.

(** [connector_mappings]: connector id -> position -> pin tuple. *)
Abbreviation ConnectorMap := (gmap string (gmap string PinInfo)).

(** The dict appended to [io_mappings] for each accepted row. *)
Module Mapping.
Record t := {
  io_name : string;
  prodigy_connector : string;
  pin_no : string;
  io_voltage : string
}.
End Mapping.

(** Exceptions the body can end with. *)
Inductive PyExc :=
| UnboundLocalError (name : string)
| ValueError
| CsvError (msg : string).

(** What iterating a csv reader over a text produces: the rows yielded,
    and the exception raised after them, if the iteration fails. *)
Record ReaderTrace := {
  rows : list (list string);
  failure : option PyExc
}.

(** The store a call works on: the connector map object of the caller and
    the locals of the frame whose binding survives from one statement to
    a later one.  [io_mappings] and [tcl_content] are bound to fresh
    lists before their first use; the four string locals are unbound
    until an assignment reaches them.  Names bound and consumed within
    one straight-line block ([row], [prodigy_connector], [mapping],
    [fpga_pin_info], [fpga_pin], [bank], [pin_desc]) are let-bound. *)
Record Store := {
  connector_mappings : ConnectorMap;
  io_mappings : list Mapping.t;
  tcl_content : list string;
  io_name : option string;
  pin_no : option string;
  io_voltage : option string;
  connector : option string
}.

Definition new_frame (cm : ConnectorMap) : Store :=
  {| connector_mappings := cm; io_mappings := []; tcl_content := [];
     io_name := None; pin_no := None; io_voltage := None; connector := None |}.

(** ** The monad of the function body *)

Definition Py (A : Type) : Type := Store -> (PyExc + A) * Store.

Definition ret {A} (a : A) : Py A := fun st => (inr a, st).

Definition raise {A} (e : PyExc) : Py A := fun st => (inl e, st).

Definition bind {A B} (m : Py A) (k : A -> Py B) : Py B :=
  fun st =>
    match m st with
    | (inr a, st') => k a st'
    | (inl e, st') => (inl e, st')
    end.

Declare Scope py_scope.
Delimit Scope py_scope with py.
Notation "x <- m ;; k" := (bind m (fun x => k))
  (at level 100, m at next level, right associativity) : py_scope.
Notation "m ;; k" := (bind m (fun _ => k))
  (at level 100, right associativity) : py_scope.
Open Scope py_scope.

Definition gets {A} (f : Store -> A) : Py A := fun st => (inr (f st), st).

Definition modify (f : Store -> Store) : Py unit := fun st => (inr tt, f st).

(** Reading a local: unbound locals raise. *)
Definition load (var : Store -> option string) (name : string) : Py string :=
  v <- gets var ;;
  match v with
  | Some s => ret s
  | None => raise (UnboundLocalError name)
  end.

(** [for x in l: body] *)
Fixpoint for_each {A} (l : list A) (body : A -> Py unit) : Py unit :=
  match l with
  | [] => ret tt
  | x :: l' => body x ;; for_each l' body
  end.

(** Assignments and the two [append]s. *)
Definition set_io_mappings (x : list Mapping.t) (st : Store) : Store :=
  match st with
  | Build_Store cm ms tcl n p v c =>
      Build_Store cm x tcl n p v c
  end.

Definition set_tcl_content (x : list string) (st : Store) : Store :=
  match st with
  | Build_Store cm ms tcl n p v c =>
      Build_Store cm ms x n p v c
  end.

Definition set_io_name (x : string) (st : Store) : Store :=
  match st with
  | Build_Store cm ms tcl n p v c =>
      Build_Store cm ms tcl (Some x) p v c
  end.

Definition set_pin_no (x : string) (st : Store) : Store :=
  match st with
  | Build_Store cm ms tcl n p v c =>
      Build_Store cm ms tcl n (Some x) v c
  end.

Definition set_io_voltage (x : string) (st : Store) : Store :=
  match st with
  | Build_Store cm ms tcl n p v c =>
      Build_Store cm ms tcl n p (Some x) c
  end.

Definition set_connector (x : string) (st : Store) : Store :=
  match st with
  | Build_Store cm ms tcl n p v c =>
      Build_Store cm ms tcl n p v (Some x)
  end.

Definition io_mappings_append (m : Mapping.t) : Py unit :=
  modify (fun st => set_io_mappings (io_mappings st ++ [m]) st).

Definition tcl_content_append (line : string) : Py unit :=
  modify (fun st => set_tcl_content (tcl_content st ++ [line]) st).

(** ** The csv reader of the standard library, default dialect

    A model of the reader's character automaton for the default
    dialect: delimiter [,], quote character 34, quotes doubled inside a
    quoted field, no escape character, not strict.  The text is read
    through a string buffer whose lines end at character 10 only. *)

Module Csv.

Inductive ParserState :=
| START_RECORD
| START_FIELD
| IN_FIELD
| IN_QUOTED_FIELD
| QUOTE_IN_QUOTED_FIELD
| EAT_CRNL.

Record Reader := {
  state : ParserState;
  fields : list string;
  field : string
}.

Definition delimiter : ascii := ","%char.
Definition quotechar : ascii := "034"%char.
Definition field_limit : N := 131072%N.

Definition is_crnl (c : ascii) : bool :=
  Ascii.eqb c "010"%char || Ascii.eqb c "013"%char.

Definition parse_reset : Reader :=
  {| state := START_RECORD; fields := []; field := EmptyString |}.

Definition set_state (s : ParserState) (rd : Reader) : Reader :=
  {| state := s; fields := fields rd; field := field rd |}.

Definition parse_save_field (rd : Reader) : Reader :=
  {| state := state rd; fields := fields rd ++ [field rd];
     field := EmptyString |}.

Definition parse_add_char (c : ascii) (rd : Reader) : PyExc + Reader :=
  if (field_limit <=? N.of_nat (String.length (field rd)))%N
  then inl (CsvError "field larger than field limit (131072)")
  else inr {| state := state rd; fields := fields rd;
              field := field rd +:+ String c EmptyString |}.

Definition end_of_field (c : option ascii) (rd : Reader) : Reader :=
  set_state (match c with None => START_RECORD | Some _ => EAT_CRNL end)
            (parse_save_field rd).

Definition at_line_end (c : option ascii) : bool :=
  match c with None => true | Some a => is_crnl a end.

Definition start_field (c : option ascii) (rd : Reader) : PyExc + Reader :=
  match c with
  | Some a =>
      if is_crnl a then inr (end_of_field c rd)
      else if Ascii.eqb a quotechar then inr (set_state IN_QUOTED_FIELD rd)
      else if Ascii.eqb a delimiter then inr (parse_save_field rd)
      else match parse_add_char a rd with
           | inr rd' => inr (set_state IN_FIELD rd')
           | inl e => inl e
           end
  | None => inr (end_of_field c rd)
  end.

(** One step of the automaton; [None] is the end-of-line mark the
    reader feeds after the last character of each line. *)
Definition parse_process_char (rd : Reader) (c : option ascii) : PyExc + Reader :=
  match state rd with
  | START_RECORD =>
      match c with
      | None => inr rd
      | Some a =>
          if is_crnl a then inr (set_state EAT_CRNL rd)
          else start_field c (set_state START_FIELD rd)
      end
  | START_FIELD => start_field c rd
  | IN_FIELD =>
      match c with
      | Some a =>
          if is_crnl a then inr (end_of_field c rd)
          else if Ascii.eqb a delimiter
          then inr (set_state START_FIELD (parse_save_field rd))
          else parse_add_char a rd
      | None => inr (end_of_field c rd)
      end
  | IN_QUOTED_FIELD =>
      match c with
      | None => inr rd
      | Some a =>
          if Ascii.eqb a quotechar then inr (set_state QUOTE_IN_QUOTED_FIELD rd)
          else parse_add_char a rd
      end
  | QUOTE_IN_QUOTED_FIELD =>
      match c with
      | Some a =>
          if Ascii.eqb a quotechar then
            match parse_add_char a rd with
            | inr rd' => inr (set_state IN_QUOTED_FIELD rd')
            | inl e => inl e
            end
          else if Ascii.eqb a delimiter
          then inr (set_state START_FIELD (parse_save_field rd))
          else if is_crnl a then inr (end_of_field c rd)
          else match parse_add_char a rd with
               | inr rd' => inr (set_state IN_FIELD rd')
               | inl e => inl e
               end
      | None => inr (end_of_field c rd)
      end
  | EAT_CRNL =>
      match c with
      | None => inr (set_state START_RECORD rd)
      | Some a =>
          if is_crnl a then inr rd
          else inl (CsvError "new-line character seen in unquoted field")
      end
  end.

Fixpoint parse_line (line : string) (rd : Reader) : PyExc + Reader :=
  match line with
  | EmptyString => parse_process_char rd None
  | String a line' =>
      match parse_process_char rd (Some a) with
      | inr rd' => parse_line line' rd'
      | inl e => inl e
      end
  end.

(** Lines of the buffer, each with its terminator. *)
Fixpoint readlines (cur : string) (s : string) : list string :=
  match s with
  | EmptyString =>
      match cur with EmptyString => [] | String _ _ => [cur] end
  | String a s' =>
      if Ascii.eqb a "010"%char
      then (cur +:+ String a EmptyString) :: readlines EmptyString s'
      else readlines (cur +:+ String a EmptyString) s'
  end.

(** The iteration: a record is complete when a line ends with the
    automaton back in [START_RECORD]; input that ends inside a record
    yields what has been collected. *)
Fixpoint iterate (lines : list string) (rd : Reader) (acc : list (list string))
  : ReaderTrace :=
  match lines with
  | [] =>
      match field rd, state rd with
      | EmptyString, IN_QUOTED_FIELD
      | String _ _, _ =>
          {| rows := acc ++ [fields (parse_save_field rd)]; failure := None |}
      | EmptyString, _ => {| rows := acc; failure := None |}
      end
  | line :: rest =>
      match parse_line line rd with
      | inl e => {| rows := acc; failure := Some e |}
      | inr rd' =>
          match state rd' with
          | START_RECORD => iterate rest parse_reset (acc ++ [fields rd'])
          | _ => iterate rest rd' acc
          end
      end
  end.

Definition excel_reader (csv_data : string) : ReaderTrace :=
  iterate (readlines EmptyString csv_data) parse_reset [].

End Csv.

(** ** The lines the generator formats *)

(** [f"# {io_name} - {connector}.{pin_no} - {pin_desc} ({bank})"] *)
Definition comment_line (io_name connector pin_no pin_desc bank : string) : string :=
  "# " +:+ io_name +:+ " - " +:+ connector +:+ "." +:+ pin_no +:+ " - "
  +:+ pin_desc +:+ " (" +:+ bank +:+ ")".

(** [f"set_property PACKAGE_PIN {fpga_pin} [get_ports {io_name}]"] *)
Definition package_pin_line (fpga_pin io_name : string) : string :=
  "set_property PACKAGE_PIN " +:+ fpga_pin +:+ " [get_ports " +:+ io_name +:+ "]".

(** [f"set_property IOSTANDARD LVCMOS{io_voltage.replace('V', '')} [get_ports {io_name}]"] *)
Definition iostandard_line (io_voltage io_name : string) : string :=
  "set_property IOSTANDARD LVCMOS" +:+ Str.remove_char "V"%char io_voltage
  +:+ " [get_ports " +:+ io_name +:+ "]".

(** [f"# ERROR: Could not find mapping for {io_name} on {connector}.{pin_no}"] *)
Definition error_line (io_name connector pin_no : string) : string :=
  "# ERROR: Could not find mapping for " +:+ io_name +:+ " on " +:+ connector
  +:+ "." +:+ pin_no.

(** The two header lines; the second carries its own line feed. *)
Definition header : list string :=
  [ "# Automatically generated Vivado constraints file";
    "# Generated from I/O mapping CSV data" +:+ Str.nl ].

(** ** The generator *)

Section Generator.

(** [csv.reader(io.StringIO(.))], iterated to its end. *)
Variable csv_reader : string -> ReaderTrace.

(** Body of the first loop: rows of four fields or more are unpacked
    from [row[:4]] and recorded, the others are passed over. *)
Definition parse_row (row : list string) : Py unit :=
  if 4 <=? length row then
    match firstn 4 row with
    | [a; b; c; d] =>
        modify (set_io_name a) ;;
        let prodigy_connector := b in
        modify (set_pin_no c) ;;
        modify (set_io_voltage d) ;;
        io_mappings_append
          {| Mapping.io_name := a; Mapping.prodigy_connector := prodigy_connector;
             Mapping.pin_no := c; Mapping.io_voltage := d |}
    | _ => raise ValueError
    end
  else ret tt.

(** Body of the second loop: four assignments from the mapping. *)
Definition bind_mapping (mapping : Mapping.t) : Py unit :=
  modify (set_io_name (Mapping.io_name mapping)) ;;
  modify (set_connector (Mapping.prodigy_connector mapping)) ;;
  modify (set_pin_no (Mapping.pin_no mapping)) ;;
  modify (set_io_voltage (Mapping.io_voltage mapping)).

(** The [else] branch. *)
Definition emit_error : Py unit :=
  n <- load io_name "io_name" ;;
  c <- load connector "connector" ;;
  p <- load pin_no "pin_no" ;;
  tcl_content_append (error_line n c p) ;;
  tcl_content_append EmptyString.

(** The [if] branch, for the tuple found in the map. *)
Definition emit_resolved (fpga_pin_info : PinInfo) : Py unit :=
  let fpga_pin := fpga_pin fpga_pin_info in
  let bank := bank fpga_pin_info in
  let pin_desc := pin_desc fpga_pin_info in
  n <- load io_name "io_name" ;;
  c <- load connector "connector" ;;
  p <- load pin_no "pin_no" ;;
  tcl_content_append (comment_line n c p pin_desc bank) ;;
  n <- load io_name "io_name" ;;
  tcl_content_append (package_pin_line fpga_pin n) ;;
  v <- load io_voltage "io_voltage" ;;
  n <- load io_name "io_name" ;;
  tcl_content_append (iostandard_line v n) ;;
  tcl_content_append EmptyString.

(** The conditional after the loops:
    [connector in connector_mappings and pin_no in connector_mappings[connector]]. *)
Definition lookup_and_emit : Py unit :=
  c <- load connector "connector" ;;
  cm <- gets connector_mappings ;;
  match cm !! c with
  | Some pins =>
      p <- load pin_no "pin_no" ;;
      match pins !! p with
      | Some fpga_pin_info => emit_resolved fpga_pin_info
      | None => emit_error
      end
  | None => emit_error
  end.

Definition generate_vivado_io_body (csv_data : string) : Py string :=
  modify (set_io_mappings []) ;;
  let csv_rows := csv_reader csv_data in
  for_each (rows csv_rows) parse_row ;;
  match failure csv_rows with Some e => raise e | None => ret tt end ;;
  modify (set_tcl_content []) ;;
  tcl_content_append "# Automatically generated Vivado constraints file" ;;
  tcl_content_append ("# Generated from I/O mapping CSV data" +:+ Str.nl) ;;
  maps <- gets io_mappings ;;
  for_each maps bind_mapping ;;
  lookup_and_emit ;;
  lines <- gets tcl_content ;;
  ret (Str.join Str.nl lines).

(** A call: a fresh frame over the caller's map; what the caller sees
    afterwards is the outcome and the map object. *)
Definition generate_vivado_io (csv_data : string) (cm : ConnectorMap)
  : (PyExc + string) * ConnectorMap :=
  let '(r, st) := generate_vivado_io_body csv_data (new_frame cm) in
  (r, connector_mappings st).

End Generator.

(** ** A functional reading of the body

    What the two loops and the conditional compute, as functions of the
    rows: used to state and prove the properties below. *)

(** The row test of the first loop, [len(row) >= 4]. *)
Definition accepted (row : list string) : Prop := 4 <= length row.

(** The dict an accepted row is recorded as. *)
Definition record_of (row : list string) : option Mapping.t :=
  match row with
  | a :: b :: c :: d :: _ =>
      Some {| Mapping.io_name := a; Mapping.prodigy_connector := b;
              Mapping.pin_no := c; Mapping.io_voltage := d |}
  | _ => None
  end.

(** [connector_mappings[connector][pin_no]] when both keys are present. *)
Definition resolve (cm : ConnectorMap) (connector pin_no : string) : option PinInfo :=
  match cm !! connector with
  | Some pins => pins !! pin_no
  | None => None
  end.

Definition resolved_block (name conn pos io : string) (info : PinInfo) : list string :=
  [ comment_line name conn pos (pin_desc info) (bank info);
    package_pin_line (fpga_pin info) name;
    iostandard_line io name;
    EmptyString ].

Definition error_block (name conn pos : string) : list string :=
  [ error_line name conn pos; EmptyString ].

(** The lines the conditional appends when the locals hold [m]. *)
Definition block_of (cm : ConnectorMap) (m : Mapping.t) : list string :=
  match resolve cm (Mapping.prodigy_connector m) (Mapping.pin_no m) with
  | Some info =>
      resolved_block (Mapping.io_name m) (Mapping.prodigy_connector m)
                     (Mapping.pin_no m) (Mapping.io_voltage m) info
  | None =>
      error_block (Mapping.io_name m) (Mapping.prodigy_connector m) (Mapping.pin_no m)
  end.

(** Outcome of the statements after the first loop, given the recorded
    mappings. *)
Definition document_for (cm : ConnectorMap) (ms : list Mapping.t) : PyExc + string :=
  match last ms with
  | Some m => inr (Str.join Str.nl (header ++ block_of cm m))
  | None => inl (UnboundLocalError "connector")
  end.

(** Store updates of the two loop bodies. *)
Definition parse_step (row : list string) (st : Store) : Store :=
  match record_of row with
  | Some m =>
      set_io_mappings (io_mappings st ++ [m])
        (set_io_voltage (Mapping.io_voltage m)
          (set_pin_no (Mapping.pin_no m)
            (set_io_name (Mapping.io_name m) st)))
  | None => st
  end.

Definition bind_step (m : Mapping.t) (st : Store) : Store :=
  set_io_voltage (Mapping.io_voltage m)
    (set_pin_no (Mapping.pin_no m)
      (set_connector (Mapping.prodigy_connector m)
        (set_io_name (Mapping.io_name m) st))).

#[global] Instance accepted_dec (row : list string) : Decision (accepted row) :=
  decide (4 <= length row).

(** ** The specification's wording, kept apart for comparison *)

Module Spec.

(** The unit marker as a suffix: a final [V] goes, nothing else does. *)
Fixpoint strip_V_suffix (s : string) : string :=
  match s with
  | EmptyString => EmptyString
  | String a s' =>
      match s' with
      | EmptyString => if Ascii.eqb a "V"%char then EmptyString else s
      | String _ _ => String a (strip_V_suffix s')
      end
  end.

(** The voltage directive as worded: the family prefix followed by
    io_standard without its trailing [V]. *)
Definition iostandard_line (io_standard name : string) : string :=
  "set_property IOSTANDARD LVCMOS" +:+ strip_V_suffix io_standard
  +:+ " [get_ports " +:+ name +:+ "]".

Definition resolved_block (name conn pos io : string) (info : PinInfo) : list string :=
  [ comment_line name conn pos (pin_desc info) (bank info);
    package_pin_line (fpga_pin info) name;
    iostandard_line io name;
    EmptyString ].

(** Every record of four fields or more that resolves has its resolved
    block, once, in the document. *)
Definition resolved_records_have_block
    (reader : string -> ReaderTrace) (csv_data : string) (cm : ConnectorMap) : Prop :=
  forall name conn pos io extra info,
    (name :: conn :: pos :: io :: extra) ∈ rows (reader csv_data) ->
    resolve cm conn pos = Some info ->
    exists doc,
      (generate_vivado_io reader csv_data cm).1 = inr doc /\
      Str.occurrences (Str.join Str.nl (resolved_block name conn pos io info)) doc = 1.

End Spec.

(** ** Sample boards and tables *)

Module Examples.

Definition clock_input : PinInfo :=
  {| fpga_pin := "AB12"; bank := "34"; pin_desc := "Clock Input" |}.

Definition data_out : PinInfo :=
  {| fpga_pin := "AC7"; bank := "35"; pin_desc := "Data Out" |}.

(** Connector J1 with positions A1 and A2; no connector J2. *)
Definition board : ConnectorMap :=
  {[ "J1" := <[ "A2" := data_out ]> {[ "A1" := clock_input ]} ]}.

Definition one_clock : string := "CLK_IN,J1,A1,3.3V".

Definition reference_voltage : string := "SIG,J1,A1,VREF1.8V".

Definition two_resolved : string :=
  "CLK_IN,J1,A1,3.3V" +:+ Str.nl +:+ "DATA,J1,A2,1.8V".

Definition unresolved_then_resolved : string :=
  "RST,J2,B4,1.8V" +:+ Str.nl +:+ "CLK_IN,J1,A1,3.3V".

Definition with_short_row : string :=
  "CLK_IN,J1,A1,3.3V" +:+ Str.nl +:+ "x,y" +:+ Str.nl +:+ "DATA,J1,A2,1.8V".

Definition with_long_row : string :=
  "CLK_IN,J1,A1,3.3V,spare,note" +:+ Str.nl +:+ "DATA,J1,A2,1.8V".

Definition with_trimmed_row : string :=
  "CLK_IN,J1,A1,3.3V" +:+ Str.nl +:+ "DATA,J1,A2,1.8V".

End Examples.

(** * Simulation tool wrapper (synopsys/verdi_vcs.py)

    [ICSimulation] assembles the argument vectors of the external
    compiler, simulator and debugger and hands them to
    [subprocess.run(cmd, check=True)].  The processes and the argument
    parser are outside the repository: the operating system is a
    parameter that answers each launch with an exit status or with the
    failure to start, and the parser a parameter that gives the parsed
    namespace.  What the wrapper prints and launches is kept in a log. *)

Module Sim.

(** The two option dicts that [__init__] stores on the instance. *)
Module VcsOptions.
Record t := {
  timescale : string;
  debug_flags : list string;
  coverage_options : list string;
  compiler_flags : list string;
  assertions : list string;
  directories : list string
}.
End VcsOptions.

Module VerdiOptions.
Record t := {
  debug_modes : list string;
  databases : list string;
  nWave_options : list string;
  analysis_options : list string
}.
End VerdiOptions.

Record ICSimulation := {
  vcs_options : VcsOptions.t;
  verdi_options : VerdiOptions.t
}.

(** [ICSimulation()] *)
Definition init : ICSimulation :=
  {| vcs_options :=
       {| VcsOptions.timescale := "1ns/1ps";
          VcsOptions.debug_flags :=
            ["-debug_all"; "-debug_acc"; "-debug_pp"; "-debug_region"];
          VcsOptions.coverage_options := ["-cm line+cond+fsm+branch+tgl"];
          VcsOptions.compiler_flags := ["-full64"; "-sverilog"; "-v2k_generate"];
          VcsOptions.assertions := ["-assert"; "-assert svaext"];
          VcsOptions.directories := ["rtl/"; "tb/"; "include/"] |};
     verdi_options :=
       {| VerdiOptions.debug_modes := ["syn"; "rtl"; "gate"];
          VerdiOptions.databases := [".fsdb"; ".vcd"; ".vpd"];
          VerdiOptions.nWave_options := ["-ssf"; "-fsdb"];
          VerdiOptions.analysis_options := ["upf"; "power"] |} |}.

(** The namespace of the [vcs] subcommand: flags are booleans, optional
    values are [None] when the option is absent. *)
Module VcsArgs.
Record t := {
  timescale : string;
  debug : bool;
  coverage : bool;
  full64 : bool;
  sverilog : bool;
  filelist : option string;
  run : bool;
  gui : bool;
  includes : option (list string);
  sources : list string;
  plusargs : option (list string)
}.
End VcsArgs.

(** The namespace of the [verdi] subcommand. *)
Module VerdiArgs.
Record t := {
  mode : option string;
  ssf : option string;
  upf : option string;
  filelist : option string;
  sources : list string
}.
End VerdiArgs.

(** What [parser.parse_args] hands to [main]: [args.tool] is [None],
    ['vcs'] or ['verdi'], with the attributes of that subcommand. *)
Inductive Namespace :=
| NoTool
| VcsTool (args : VcsArgs.t)
| VerdiTool (args : VerdiArgs.t).

(** Exceptions a call can end with. *)
Inductive Exc :=
| CalledProcessError (returncode : Z) (cmd : list string)
| LaunchError (name : string)
| SystemExit (code : Z).

(** Answer of the operating system to a launch: the exit status of the
    process, or the error raised because it could not be started. *)
Inductive ProcResult :=
| Exited (returncode : Z)
| NotStarted (error : string).

(** What the wrapper does that can be observed, in order. *)
Inductive Event :=
| Stdout (text : string)
| StderrError (prefix : string) (returncode : Z) (cmd : list string)
| Spawn (argv : list string)
| PrintHelp.

(** [if x:] on an optional string and on an optional list: [None] and
    the empty value are false. *)
Definition truthy_str (x : option string) : option string :=
  match x with
  | Some (String a s) => Some (String a s)
  | _ => None
  end.

Definition truthy_list (x : option (list string)) : option (list string) :=
  match x with
  | Some (a :: l) => Some (a :: l)
  | _ => None
  end.

(** [cmd.extend([flag, value])] under [if value:] *)
Definition extend_option (flag : string) (value : option string)
    (cmd : list string) : list string :=
  match truthy_str value with
  | Some v => cmd ++ [flag; v]
  | None => cmd
  end.

(** The compilation command of [run_vcs], statement by statement. *)
Definition vcs_compile_cmd (self : ICSimulation) (args : VcsArgs.t) : list string :=
  let compile_cmd := ["vcs"] in
  let compile_cmd := compile_cmd ++ ["-timescale=" +:+ VcsArgs.timescale args] in
  let compile_cmd :=
    if VcsArgs.debug args then compile_cmd ++ ["-debug_all"] else compile_cmd in
  let compile_cmd :=
    if VcsArgs.coverage args
    then compile_cmd ++ VcsOptions.coverage_options (vcs_options self)
    else compile_cmd in
  let compile_cmd :=
    if VcsArgs.full64 args then compile_cmd ++ ["-full64"] else compile_cmd in
  let compile_cmd :=
    if VcsArgs.sverilog args then compile_cmd ++ ["-sverilog"] else compile_cmd in
  let compile_cmd := extend_option "-f" (VcsArgs.filelist args) compile_cmd in
  let compile_cmd :=
    fold_left (fun cmd file => cmd ++ [file]) (VcsArgs.sources args) compile_cmd in
  match truthy_list (VcsArgs.includes args) with
  | Some incs =>
      fold_left (fun cmd inc => cmd ++ ["+incdir+" +:+ inc]) incs compile_cmd
  | None => compile_cmd
  end.

(** The simulation command of [run_vcs]. *)
Definition vcs_sim_cmd (args : VcsArgs.t) : list string :=
  let sim_cmd := ["./simv"] in
  let sim_cmd := if VcsArgs.gui args then sim_cmd ++ ["-gui"] else sim_cmd in
  match truthy_list (VcsArgs.plusargs args) with
  | Some plus => sim_cmd ++ plus
  | None => sim_cmd
  end.

(** The command of [run_verdi]. *)
Definition verdi_cmd (args : VerdiArgs.t) : list string :=
  let cmd := ["verdi"] in
  let cmd := extend_option "-mode" (VerdiArgs.mode args) cmd in
  let cmd := extend_option "-ssf" (VerdiArgs.ssf args) cmd in
  let cmd := extend_option "-upf" (VerdiArgs.upf args) cmd in
  let cmd := extend_option "-f" (VerdiArgs.filelist args) cmd in
  fold_left (fun cmd file => cmd ++ [file]) (VerdiArgs.sources args) cmd.

(** The argument vectors launched, read off a log. *)
Fixpoint spawned (log : list Event) : list (list string) :=
  match log with
  | [] => []
  | Spawn argv :: rest => argv :: spawned rest
  | _ :: rest => spawned rest
  end.

Section Wrapper.

(** The operating system: a launch in a given state of the world gives a
    result and the next state. *)
Variable World : Type.
Variable os_run : World -> list string -> ProcResult * World.

(** [parser.parse_args(args)] for the parser of [setup_parser]: what it
    prints, and the namespace or the exit it ends with. *)
Variable parse_args :
  ICSimulation -> list string -> list Event * (Z + Namespace).

Record Machine := {
  world : World;
  log : list Event
}.

Definition IO (A : Type) : Type := Machine -> (Exc + A) * Machine.

Definition io_ret {A} (a : A) : IO A := fun m => (inr a, m).

Definition io_raise {A} (e : Exc) : IO A := fun m => (inl e, m).

Definition io_bind {A B} (c : IO A) (k : A -> IO B) : IO B :=
  fun m =>
    match c m with
    | (inr a, m') => k a m'
    | (inl e, m') => (inl e, m')
    end.

Definition emit (evs : list Event) : IO unit :=
  fun m => (inr tt, {| world := world m; log := log m ++ evs |}).

(** [print(text)] *)
Definition print (text : string) : IO unit := emit [Stdout text].

(** [sys.exit(code)] *)
Definition sys_exit {A} (code : Z) : IO A := io_raise (SystemExit code).

(** [subprocess.run(cmd, check=True)]: the launch is logged; a process
    that exits with a status other than 0 raises [CalledProcessError], a
    process that cannot be started raises the launch error. *)
Definition subprocess_run (cmd : list string) : IO unit :=
  fun m =>
    let '(r, w) := os_run (world m) cmd in
    let m' := {| world := w; log := log m ++ [Spawn cmd] |} in
    match r with
    | Exited rc =>
        if Z.eqb rc 0 then (inr tt, m')
        else (inl (CalledProcessError rc cmd), m')
    | NotStarted e => (inl (LaunchError e), m')
    end.

(** [try: body  except subprocess.CalledProcessError as e: handler] *)
Definition try_except {A} (body : IO A) (handler : Z -> list string -> IO A) : IO A :=
  fun m =>
    match body m with
    | (inl (CalledProcessError rc cmd), m') => handler rc cmd m'
    | other => other
    end.

Definition run_vcs (self : ICSimulation) (args : VcsArgs.t) : IO unit :=
  try_except
    (let compile_cmd := vcs_compile_cmd self args in
     io_bind (print ("Executing VCS compilation: " +:+ Str.join " " compile_cmd))
       (fun _ =>
     io_bind (subprocess_run compile_cmd) (fun _ =>
     if VcsArgs.run args then
       let sim_cmd := vcs_sim_cmd args in
       io_bind (print ("Executing simulation: " +:+ Str.join " " sim_cmd)) (fun _ =>
       subprocess_run sim_cmd)
     else io_ret tt)))
    (fun rc cmd =>
       io_bind (emit [StderrError "Error in VCS execution: " rc cmd]) (fun _ =>
       sys_exit 1)).

Definition run_verdi (self : ICSimulation) (args : VerdiArgs.t) : IO unit :=
  try_except
    (let cmd := verdi_cmd args in
     io_bind (print ("Launching Verdi: " +:+ Str.join " " cmd)) (fun _ =>
     subprocess_run cmd))
    (fun rc cmd =>
       io_bind (emit [StderrError "Error launching Verdi: " rc cmd]) (fun _ =>
       sys_exit 1)).

Definition main (self : ICSimulation) (argv : list string) : IO unit :=
  let '(printed, parsed) := parse_args self argv in
  io_bind (emit printed) (fun _ =>
  match parsed with
  | inl code => sys_exit code
  | inr NoTool => io_bind (emit [PrintHelp]) (fun _ => sys_exit 1)
  | inr (VcsTool args) => run_vcs self args
  | inr (VerdiTool args) => run_verdi self args
  end).

End Wrapper.

End Sim.

Arguments Sim.world {World} _.
Arguments Sim.log {World} _.
Arguments Sim.Build_Machine {World} _ _.
Arguments Sim.run_vcs {World} _ _ _ _.
Arguments Sim.run_verdi {World} _ _ _ _.
Arguments Sim.main {World} _ _ _ _ _.

(** Sample environments and namespaces for the wrapper.  The world is
    the number of launches so far. *)
Module SimExamples.

(** Every process exits with status 2. *)
Definition failing_os (w : nat) (cmd : list string) : Sim.ProcResult * nat :=
  (Sim.Exited 2, S w).

(** Every process exits with status 0. *)
Definition healthy_os (w : nat) (cmd : list string) : Sim.ProcResult * nat :=
  (Sim.Exited 0, S w).

(** No program can be started. *)
Definition missing_os (w : nat) (cmd : list string) : Sim.ProcResult * nat :=
  (Sim.NotStarted "FileNotFoundError", w).

Definition vcs_args : Sim.VcsArgs.t :=
  {| Sim.VcsArgs.timescale := "1ns/1ps";
     Sim.VcsArgs.debug := true;
     Sim.VcsArgs.coverage := false;
     Sim.VcsArgs.full64 := true;
     Sim.VcsArgs.sverilog := true;
     Sim.VcsArgs.filelist := None;
     Sim.VcsArgs.run := true;
     Sim.VcsArgs.gui := false;
     Sim.VcsArgs.includes := Some ["inc"];
     Sim.VcsArgs.sources := ["top.sv"; "tb.sv"];
     Sim.VcsArgs.plusargs := Some ["+seed=1"] |}.

Definition verdi_args : Sim.VerdiArgs.t :=
  {| Sim.VerdiArgs.mode := Some "rtl";
     Sim.VerdiArgs.ssf := Some "dump.fsdb";
     Sim.VerdiArgs.upf := None;
     Sim.VerdiArgs.filelist := Some EmptyString;
     Sim.VerdiArgs.sources := ["top.sv"] |}.

Definition start : Sim.Machine nat := Sim.Build_Machine 0 [].

(** A parser that finds no subcommand and prints nothing itself. *)
Definition parser_no_tool (self : Sim.ICSimulation) (argv : list string)
  : list Sim.Event * (Z + Sim.Namespace) :=
  ([], inr Sim.NoTool).

End SimExamples.

(** Further sample tables for the constraint generator. *)
Module MoreExamples.

Definition reset_only : string := "RST,J2,B4,1.8V".

Definition reset_pin : PinInfo :=
  {| fpga_pin := "K3"; bank := "14"; pin_desc := "Reset" |}.

Definition clock_without_unit : string := "CLK_IN,J1,A1,3.3".

Definition short_rows_only : string := "a,b,c" +:+ Str.nl +:+ "x".

(** A reader that yields one good row and then fails. *)
Definition broken_reader (csv_data : string) : ReaderTrace :=
  {| rows := [["CLK_IN"; "J1"; "A1"; "3.3V"]];
     failure := Some (CsvError "new-line character seen in unquoted field") |}.

End MoreExamples.

(** Unfolds the wrapper's monad down to the launches. *)
Local Ltac run_wrapper :=
  unfold Sim.run_vcs, Sim.run_verdi, Sim.try_except, Sim.io_bind, Sim.print,
    Sim.emit, Sim.subprocess_run, Sim.sys_exit, Sim.io_raise, Sim.io_ret;
  cbn [Sim.world Sim.log].

(** Runs one branch of the conditional to its end. *)
Local Ltac run_block :=
  unfold emit_resolved, emit_error, load, gets, bind, ret,
    tcl_content_append, modify, set_tcl_content;
  cbn; rewrite <- ?app_assoc; reflexivity.

(** ** The loops *)

Lemma parse_row_step row st : parse_row row st = (inr tt, parse_step row st).
Proof.
  destruct st, row as [|a [|b [|c [|d tl]]]]; reflexivity.
Qed.

Lemma bind_mapping_step m st : bind_mapping m st = (inr tt, bind_step m st).
Proof. reflexivity. Qed.

Lemma bind_step_twice m m' st : bind_step m' (bind_step m st) = bind_step m' st.
Proof. destruct st; reflexivity. Qed.

Lemma last_cons_or {A} (x : A) (l : list A) :
  last (x :: l) = match last l with Some y => Some y | None => Some x end.
Proof. destruct l as [|y l]; [reflexivity|]. simpl. destruct (last (y :: l)) eqn:E; [reflexivity|]. by apply last_None in E. Qed.

Lemma second_loop ms st :
  for_each ms bind_mapping st =
  (inr tt, match last ms with Some m => bind_step m st | None => st end).
Proof.
  revert st. induction ms as [|m ms IH]; intros st; [reflexivity|].
  cbn [for_each]. unfold bind at 1. rewrite bind_mapping_step, IH, last_cons_or.
  destruct (last ms); [by rewrite bind_step_twice | reflexivity].
Qed.

Lemma first_loop rows st :
  for_each rows parse_row st =
  (inr tt,
   match last (omap record_of rows) with
   | Some m =>
       set_io_mappings (io_mappings st ++ omap record_of rows)
         (set_io_voltage (Mapping.io_voltage m)
           (set_pin_no (Mapping.pin_no m)
             (set_io_name (Mapping.io_name m) st)))
   | None => st
   end).
Proof.
  revert st. induction rows as [|row rows IH]; intros st; [reflexivity|].
  cbn [for_each]. unfold bind at 1. rewrite parse_row_step, IH.
  unfold parse_step. cbn [omap list_omap].
  destruct (record_of row) as [m|]; [|reflexivity].
  rewrite last_cons_or.
  destruct (last (omap record_of rows)) as [m'|] eqn:E.
  - destruct st; cbn. by rewrite <- app_assoc.
  - apply last_None in E. rewrite E. reflexivity.
Qed.

Lemma lookup_and_emit_bound cm ms tcl (m : Mapping.t) :
  lookup_and_emit
    {| connector_mappings := cm; io_mappings := ms; tcl_content := tcl;
       io_name := Some (Mapping.io_name m); pin_no := Some (Mapping.pin_no m);
       io_voltage := Some (Mapping.io_voltage m);
       connector := Some (Mapping.prodigy_connector m) |} =
  (inr tt,
   {| connector_mappings := cm; io_mappings := ms;
      tcl_content := tcl ++ block_of cm m;
      io_name := Some (Mapping.io_name m); pin_no := Some (Mapping.pin_no m);
      io_voltage := Some (Mapping.io_voltage m);
      connector := Some (Mapping.prodigy_connector m) |}).
Proof.
  unfold lookup_and_emit, block_of, resolve.
  unfold bind at 1. cbn [load gets bind connector ret].
  cbn [connector_mappings].
  destruct (cm !! Mapping.prodigy_connector m) as [pins|].
  - unfold bind at 1. cbn [load gets bind pin_no ret].
    destruct (pins !! Mapping.pin_no m) as [info|]; run_block.
  - run_block.
Qed.

Lemma generate_vivado_io_eq csv_reader csv_data cm :
  generate_vivado_io csv_reader csv_data cm =
  (match failure (csv_reader csv_data) with
   | Some e => inl e
   | None => document_for cm (omap record_of (rows (csv_reader csv_data)))
   end, cm).
Proof.
  unfold generate_vivado_io, generate_vivado_io_body.
  unfold bind at 1. cbn [modify].
  change (set_io_mappings [] (new_frame cm)) with (new_frame cm).
  unfold bind at 1. rewrite first_loop.
  set (ms := omap record_of (rows (csv_reader csv_data))).
  unfold document_for, new_frame.
  destruct (failure (csv_reader csv_data)) as [e|].
  - destruct (last ms); reflexivity.
  - destruct (last ms) as [m|] eqn:E.
    + unfold bind, ret, modify, gets, tcl_content_append.
      cbn -[for_each lookup_and_emit Str.join].
      rewrite second_loop, E. unfold bind_step.
      cbn -[for_each lookup_and_emit Str.join].
      rewrite lookup_and_emit_bound. reflexivity.
    + reflexivity.
Qed.

(** ** Rows and recorded mappings *)

Lemma record_of_accepted row :
  accepted row ->
  exists a b c d tl, row = a :: b :: c :: d :: tl.
Proof.
  unfold accepted.
  destruct row as [|a [|b [|c [|d tl]]]]; cbn; intros H; try lia.
  by exists a, b, c, d, tl.
Qed.

Lemma record_of_short row : ~ accepted row -> record_of row = None.
Proof.
  unfold accepted.
  destruct row as [|a [|b [|c [|d tl]]]]; cbn; intros H; try reflexivity.
  exfalso. apply H. lia.
Qed.

Lemma record_of_firstn row : record_of (firstn 4 row) = record_of row.
Proof. destruct row as [|a [|b [|c [|d tl]]]]; reflexivity. Qed.

Lemma omap_record_of_filter (rows : list (list string)) :
  omap record_of rows = omap record_of (filter accepted rows).
Proof.
  induction rows as [|row rows IH]; [reflexivity|].
  destruct (decide (accepted row)) as [Hacc|Hshort].
  - rewrite filter_cons_True by assumption. cbn. by rewrite IH.
  - rewrite filter_cons_False by assumption. cbn.
    by rewrite (record_of_short _ Hshort).
Qed.

Lemma last_recorded (rows : list (list string)) a b c d tl :
  last (filter accepted rows) = Some (a :: b :: c :: d :: tl) ->
  last (omap record_of rows) =
  Some {| Mapping.io_name := a; Mapping.prodigy_connector := b;
          Mapping.pin_no := c; Mapping.io_voltage := d |}.
Proof.
  intros H. apply last_Some in H as [front Hfront].
  rewrite omap_record_of_filter, Hfront, omap_app. cbn.
  apply last_snoc.
Qed.

Lemma only_recorded (rows : list (list string)) a b c d tl :
  filter accepted rows = [a :: b :: c :: d :: tl] ->
  omap record_of rows =
  [{| Mapping.io_name := a; Mapping.prodigy_connector := b;
      Mapping.pin_no := c; Mapping.io_voltage := d |}].
Proof. intros H. by rewrite omap_record_of_filter, H. Qed.

(** ** Removing the unit marker *)

Lemma append_cons a s t : String a s +:+ t = String a (s +:+ t).
Proof. reflexivity. Qed.

Lemma append_empty_r s : s +:+ EmptyString = s.
Proof. induction s as [|a s IH]; [reflexivity|]. by rewrite append_cons, IH. Qed.

Lemma mem_remove_char c s : Str.mem c (Str.remove_char c s) = false.
Proof.
  induction s as [|a s IH]; [reflexivity|]. cbn.
  destruct (Ascii.eqb a c) eqn:E; [assumption|]. cbn. by rewrite E.
Qed.

Lemma remove_char_absent c s : Str.mem c s = false -> Str.remove_char c s = s.
Proof.
  induction s as [|a s IH]; [reflexivity|]. cbn.
  destruct (Ascii.eqb a c); cbn; [discriminate|]. intros H. by rewrite IH.
Qed.

Lemma remove_char_append c s t :
  Str.remove_char c (s +:+ t) = Str.remove_char c s +:+ Str.remove_char c t.
Proof.
  induction s as [|a s IH]; [reflexivity|].
  rewrite append_cons. cbn. destruct (Ascii.eqb a c); [assumption|].
  by rewrite append_cons, IH.
Qed.

Lemma remove_trailing_V v :
  Str.mem "V" v = false -> Str.remove_char "V" (v +:+ "V") = v.
Proof.
  intros H. rewrite remove_char_append, (remove_char_absent _ _ H).
  apply append_empty_r.
Qed.

Lemma strip_V_suffix_keeps_inner a b :
  b <> EmptyString ->
  Str.mem "V" (Spec.strip_V_suffix (a +:+ String "V" b)) = true.
Proof.
  intros Hb. induction a as [|x a IH].
  - destruct b as [|y b]; [done|]. reflexivity.
  - rewrite append_cons.
    destruct (a +:+ String "V" b) as [|y rest] eqn:E.
    + destruct a; discriminate.
    + change (Spec.strip_V_suffix (String x (String y rest)))
        with (String x (Spec.strip_V_suffix (String y rest))).
      cbn [Str.mem]. rewrite IH. apply orb_true_r.
Qed.

Lemma remove_differs_from_strip a b :
  b <> EmptyString ->
  Str.remove_char "V" (a +:+ String "V" b) <>
  Spec.strip_V_suffix (a +:+ String "V" b).
Proof.
  intros Hb Heq.
  pose proof (mem_remove_char "V" (a +:+ String "V" b)) as Hnone.
  rewrite Heq, (strip_V_suffix_keeps_inner a b Hb) in Hnone. discriminate.
Qed.

(** ** Properties of the returned document *)

(** C1, as worded, fails: for the one-record table [SIG,J1,A1,VREF1.8V]
    on a board that resolves J1.A1, the document holds no block whose
    voltage directive is the family prefix followed by the io_standard
    without its trailing V ([LVCMOSVREF1.8]); the generator writes
    [LVCMOSREF1.8]. *)
Lemma C1_trailing_suffix_counterexample :
  ~ Spec.resolved_records_have_block
      Csv.excel_reader Examples.reference_voltage Examples.board.
Proof.
  intros H.
  destruct (H "SIG" "J1" "A1" "VREF1.8V" [] Examples.clock_input)
    as (doc & Hdoc & Hcount).
  - apply list_elem_of_In. vm_compute. left. reflexivity.
  - vm_compute. reflexivity.
  - vm_compute in Hdoc. injection Hdoc as <-.
    vm_compute in Hcount. discriminate.
Qed.

(** C1, amended: when the table has exactly one record of four fields or
    more and its (connector, position) pair resolves, the document is the
    header followed by that record's resolved block and nothing else: the
    comment line with name, connector, position, description and bank,
    the PACKAGE_PIN directive for the mapped pin, the IOSTANDARD
    directive [LVCMOS] followed by io_standard with every V removed, and
    the blank separator.  When the only V of io_standard is its last
    character, that value is io_standard without the suffix. *)
Theorem C1_single_record_resolved_block
    (reader : string -> ReaderTrace) (csv_data : string) (cm : ConnectorMap)
    (name conn pos io : string) (extra : list string) (info : PinInfo) :
  failure (reader csv_data) = None ->
  filter accepted (rows (reader csv_data)) = [name :: conn :: pos :: io :: extra] ->
  resolve cm conn pos = Some info ->
  (generate_vivado_io reader csv_data cm).1 =
    inr (Str.join Str.nl
           [ "# Automatically generated Vivado constraints file";
             "# Generated from I/O mapping CSV data" +:+ Str.nl;
             "# " +:+ name +:+ " - " +:+ conn +:+ "." +:+ pos +:+ " - "
               +:+ pin_desc info +:+ " (" +:+ bank info +:+ ")";
             "set_property PACKAGE_PIN " +:+ fpga_pin info
               +:+ " [get_ports " +:+ name +:+ "]";
             "set_property IOSTANDARD LVCMOS" +:+ Str.remove_char "V" io
               +:+ " [get_ports " +:+ name +:+ "]";
             EmptyString ])
  /\ (forall v, io = v +:+ "V" -> Str.mem "V" v = false ->
        Str.remove_char "V" io = v).
Proof.
  intros Hfail Hrows Hres. split.
  - rewrite generate_vivado_io_eq, Hfail, (only_recorded _ _ _ _ _ _ Hrows).
    unfold document_for, block_of. cbn [last Mapping.prodigy_connector
      Mapping.pin_no Mapping.io_name Mapping.io_voltage fst].
    rewrite Hres. reflexivity.
  - intros v -> Hv. by apply remove_trailing_V.
Qed.

Lemma C1_single_record_resolved_block_witness :
  (generate_vivado_io Csv.excel_reader Examples.one_clock Examples.board).1 =
    inr (Str.join Str.nl
           [ "# Automatically generated Vivado constraints file";
             "# Generated from I/O mapping CSV data" +:+ Str.nl;
             "# CLK_IN - J1.A1 - Clock Input (34)";
             "set_property PACKAGE_PIN AB12 [get_ports CLK_IN]";
             "set_property IOSTANDARD LVCMOS3.3 [get_ports CLK_IN]";
             EmptyString ]).
Proof.
  refine (proj1 (C1_single_record_resolved_block
            Csv.excel_reader Examples.one_clock Examples.board
            "CLK_IN" "J1" "A1" "3.3V" [] Examples.clock_input _ _ _));
    vm_compute; reflexivity.
Defined.

(** C2, at a table of two records that both resolve: the document holds
    the header and the block of the second record only; nothing of the
    first record (CLK_IN) is in it. *)
Theorem C2_two_records_one_block :
  exists doc,
    (generate_vivado_io Csv.excel_reader Examples.two_resolved Examples.board).1
      = inr doc /\
    doc = Str.join Str.nl
            (header ++ resolved_block "DATA" "J1" "A2" "1.8V" Examples.data_out) /\
    Str.contains "CLK_IN" doc = false /\
    Str.occurrences "set_property PACKAGE_PIN" doc = 1.
Proof.
  eexists. split; [vm_compute; reflexivity|].
  repeat split; vm_compute; reflexivity.
Qed.

(** C3, at a table whose first record does not resolve (no connector J2)
    and whose second does: the document holds no error block, and no
    mention of the first record (RST) at all. *)
Theorem C3_unresolved_record_without_error_block :
  exists doc,
    (generate_vivado_io Csv.excel_reader
       Examples.unresolved_then_resolved Examples.board).1 = inr doc /\
    resolve Examples.board "J2" "B4" = None /\
    doc = Str.join Str.nl
            (header ++ resolved_block "CLK_IN" "J1" "A1" "3.3V" Examples.clock_input) /\
    Str.contains "RST" doc = false /\
    Str.contains "# ERROR" doc = false.
Proof.
  eexists. split; [vm_compute; reflexivity|].
  repeat split; vm_compute; reflexivity.
Qed.

(** C4, at the empty table: whatever the connector map, the call ends
    with an unbound-local exception on [connector] and returns no
    document. *)
Theorem C4_empty_table_raises (cm : ConnectorMap) :
  (generate_vivado_io Csv.excel_reader EmptyString cm).1 =
    inl (UnboundLocalError "connector").
Proof. rewrite generate_vivado_io_eq. reflexivity. Qed.

(** C5: a row of fewer than four fields leaves the frame as it was (it
    is passed over before any lookup), and the outcome for a table that
    holds such a row is the outcome for the table without it. *)
Theorem C5_short_row_contributes_nothing
    (reader : string -> ReaderTrace) (csv_data csv_data' : string)
    (cm : ConnectorMap) (front back : list (list string)) (row : list string) :
  length row < 4 ->
  rows (reader csv_data) = front ++ row :: back ->
  rows (reader csv_data') = front ++ back ->
  failure (reader csv_data) = failure (reader csv_data') ->
  (forall st, parse_row row st = (inr tt, st)) /\
  generate_vivado_io reader csv_data cm = generate_vivado_io reader csv_data' cm.
Proof.
  intros Hlen Hrows Hrows' Hfail.
  assert (Hnone : record_of row = None).
  { apply record_of_short. unfold accepted. lia. }
  split.
  - intros st. rewrite parse_row_step. unfold parse_step. by rewrite Hnone.
  - rewrite !generate_vivado_io_eq, Hfail, Hrows, Hrows', !omap_app.
    cbn. by rewrite Hnone.
Qed.

Lemma C5_short_row_contributes_nothing_witness :
  generate_vivado_io Csv.excel_reader Examples.with_short_row Examples.board =
  generate_vivado_io Csv.excel_reader Examples.two_resolved Examples.board.
Proof.
  refine (proj2 (C5_short_row_contributes_nothing
            Csv.excel_reader Examples.with_short_row Examples.two_resolved
            Examples.board [["CLK_IN"; "J1"; "A1"; "3.3V"]]
            [["DATA"; "J1"; "A2"; "1.8V"]] ["x"; "y"] _ _ _ _));
    vm_compute; first [reflexivity | lia].
Defined.

(** C8: the connector map object the caller passed in is, after the
    call, the map it was before, whether the call returned a document
    or ended with an exception. *)
Theorem C8_connector_map_unchanged
    (reader : string -> ReaderTrace) (csv_data : string) (cm : ConnectorMap) :
  (generate_vivado_io reader csv_data cm).2 = cm.
Proof. by rewrite generate_vivado_io_eq. Qed.

(** C6: a second call on the same text, started on the map object the
    first call left behind, has the outcome of the first call: the same
    document, character for character, or the same exception. *)
Theorem C6_second_run_same_document
    (reader : string -> ReaderTrace) (csv_data : string) (cm : ConnectorMap) :
  generate_vivado_io reader csv_data
    (generate_vivado_io reader csv_data cm).2 =
  generate_vivado_io reader csv_data cm.
Proof.
  rewrite (generate_vivado_io_eq reader csv_data cm). cbn [snd].
  apply generate_vivado_io_eq.
Qed.

(** C7: a row of more than four fields is handled by the first loop as
    its first four fields are, and the outcome for a table that holds
    the row is the outcome for the table with the row cut to four
    fields. *)
Theorem C7_extra_fields_ignored
    (reader : string -> ReaderTrace) (csv_data csv_data' : string)
    (cm : ConnectorMap) (front back : list (list string)) (row : list string) :
  4 < length row ->
  rows (reader csv_data) = front ++ row :: back ->
  rows (reader csv_data') = front ++ firstn 4 row :: back ->
  failure (reader csv_data) = failure (reader csv_data') ->
  (forall st, parse_row row st = parse_row (firstn 4 row) st) /\
  generate_vivado_io reader csv_data cm = generate_vivado_io reader csv_data' cm.
Proof.
  intros _ Hrows Hrows' Hfail. split.
  - intros st. rewrite !parse_row_step. unfold parse_step.
    by rewrite record_of_firstn.
  - rewrite !generate_vivado_io_eq, Hfail, Hrows, Hrows', !omap_app.
    cbn [omap list_omap]. by rewrite record_of_firstn.
Qed.

Lemma C7_extra_fields_ignored_witness :
  generate_vivado_io Csv.excel_reader Examples.with_long_row Examples.board =
  generate_vivado_io Csv.excel_reader Examples.with_trimmed_row Examples.board.
Proof.
  refine (proj2 (C7_extra_fields_ignored
            Csv.excel_reader Examples.with_long_row Examples.with_trimmed_row
            Examples.board []
            [["DATA"; "J1"; "A2"; "1.8V"]]
            ["CLK_IN"; "J1"; "A1"; "3.3V"; "spare"; "note"] _ _ _ _));
    vm_compute; first [reflexivity | lia].
Defined.

(** C9: when the table has a record of four fields or more, the
    document is the header followed by one block, and the block is that
    of the last such record: its resolved block when its pair resolves,
    its error block otherwise.  The records before it leave no trace:
    the outcome is that of any table whose only row is that record. *)
Theorem C9_only_last_record_emitted
    (reader : string -> ReaderTrace) (csv_data : string) (cm : ConnectorMap)
    (record : list string) :
  failure (reader csv_data) = None ->
  last (filter accepted (rows (reader csv_data))) = Some record ->
  exists name conn pos io extra,
    record = name :: conn :: pos :: io :: extra /\
    (generate_vivado_io reader csv_data cm).1 =
      inr (Str.join Str.nl
             (header ++
              match resolve cm conn pos with
              | Some info => resolved_block name conn pos io info
              | None => error_block name conn pos
              end)) /\
    (forall csv_data',
        failure (reader csv_data') = None ->
        rows (reader csv_data') = [record] ->
        generate_vivado_io reader csv_data' cm =
        generate_vivado_io reader csv_data cm).
Proof.
  intros Hfail Hlast.
  assert (Hacc : accepted record).
  { apply last_Some in Hlast as [front Hfront].
    assert (Hin : record ∈ filter accepted (rows (reader csv_data))).
    { rewrite Hfront. apply elem_of_app. right. apply list_elem_of_singleton.
      reflexivity. }
    apply list_elem_of_filter in Hin. exact (proj1 Hin). }
  destruct (record_of_accepted _ Hacc) as (name & conn & pos & io & extra & ->).
  exists name, conn, pos, io, extra. split; [reflexivity|].
  pose proof (last_recorded _ _ _ _ _ _ Hlast) as Hm.
  split.
  - rewrite generate_vivado_io_eq, Hfail. unfold document_for.
    rewrite Hm. reflexivity.
  - intros csv_data' Hfail' Hrows'.
    rewrite !generate_vivado_io_eq, Hfail, Hfail', Hrows'.
    unfold document_for. rewrite Hm. reflexivity.
Qed.

Lemma C9_only_last_record_emitted_witness :
  exists name conn pos io extra,
    ["DATA"; "J1"; "A2"; "1.8V"] = name :: conn :: pos :: io :: extra /\
    (generate_vivado_io Csv.excel_reader Examples.two_resolved Examples.board).1 =
      inr (Str.join Str.nl
             (header ++
              match resolve Examples.board conn pos with
              | Some info => resolved_block name conn pos io info
              | None => error_block name conn pos
              end)) /\
    (forall csv_data',
        failure (Csv.excel_reader csv_data') = None ->
        rows (Csv.excel_reader csv_data') = [["DATA"; "J1"; "A2"; "1.8V"]] ->
        generate_vivado_io Csv.excel_reader csv_data' Examples.board =
        generate_vivado_io Csv.excel_reader Examples.two_resolved Examples.board).
Proof.
  apply (C9_only_last_record_emitted
           Csv.excel_reader Examples.two_resolved Examples.board);
    vm_compute; reflexivity.
Defined.

(** C10: whenever a resolved block is emitted (the last record of four
    fields or more resolves), its IOSTANDARD directive is [LVCMOS]
    followed by the record's io_standard with every V removed.  The
    value holds no V at all; for VREF1.8V it is REF1.8, where removing
    the suffix alone gives VREF1.8; and it differs from suffix removal
    whenever a V stands before the last character. *)
Theorem C10_iostandard_removes_every_V
    (reader : string -> ReaderTrace) (csv_data : string) (cm : ConnectorMap)
    (name conn pos io : string) (extra : list string) (info : PinInfo) :
  failure (reader csv_data) = None ->
  last (filter accepted (rows (reader csv_data))) =
    Some (name :: conn :: pos :: io :: extra) ->
  resolve cm conn pos = Some info ->
  (generate_vivado_io reader csv_data cm).1 =
    inr (Str.join Str.nl
           (header ++
            [ comment_line name conn pos (pin_desc info) (bank info);
              package_pin_line (fpga_pin info) name;
              "set_property IOSTANDARD LVCMOS" +:+ Str.remove_char "V" io
                +:+ " [get_ports " +:+ name +:+ "]";
              EmptyString ])) /\
  Str.mem "V" (Str.remove_char "V" io) = false /\
  (Str.remove_char "V" "VREF1.8V" = "REF1.8" /\
   Spec.strip_V_suffix "VREF1.8V" = "VREF1.8") /\
  (forall a b, io = a +:+ String "V" b -> b <> EmptyString ->
     Str.remove_char "V" io <> Spec.strip_V_suffix io).
Proof.
  intros Hfail Hlast Hres. repeat split.
  - rewrite generate_vivado_io_eq, Hfail. unfold document_for.
    rewrite (last_recorded _ _ _ _ _ _ Hlast). unfold block_of.
    cbn [Mapping.prodigy_connector Mapping.pin_no Mapping.io_name
         Mapping.io_voltage fst].
    rewrite Hres. reflexivity.
  - apply mem_remove_char.
  - intros a b -> Hb. by apply remove_differs_from_strip.
Qed.

Lemma C10_iostandard_removes_every_V_witness :
  (generate_vivado_io Csv.excel_reader Examples.reference_voltage Examples.board).1 =
    inr (Str.join Str.nl
           (header ++
            [ "# SIG - J1.A1 - Clock Input (34)";
              "set_property PACKAGE_PIN AB12 [get_ports SIG]";
              "set_property IOSTANDARD LVCMOSREF1.8 [get_ports SIG]";
              EmptyString ])).
Proof.
  refine (proj1 (C10_iostandard_removes_every_V
            Csv.excel_reader Examples.reference_voltage Examples.board
            "SIG" "J1" "A1" "VREF1.8V" [] Examples.clock_input _ _ _));
    vm_compute; reflexivity.
Defined.

(** * The simulation tool wrapper *)

Lemma fold_left_snoc {A} (f : A -> string) (l : list A) (acc : list string) :
  fold_left (fun cmd x => cmd ++ [f x]) l acc = acc ++ map f l.
Proof.
  revert acc. induction l as [|x l IH]; intros acc; cbn.
  - by rewrite app_nil_r.
  - by rewrite IH, <- app_assoc.
Qed.

Lemma spawned_app (l1 l2 : list Sim.Event) :
  Sim.spawned (l1 ++ l2) = Sim.spawned l1 ++ Sim.spawned l2.
Proof.
  induction l1 as [|ev l1 IH]; [reflexivity|].
  destruct ev; cbn; by rewrite IH.
Qed.

Lemma extend_option_app flag value cmd :
  Sim.extend_option flag value cmd =
  cmd ++ match Sim.truthy_str value with Some v => [flag; v] | None => [] end.
Proof.
  unfold Sim.extend_option. destruct (Sim.truthy_str value); [reflexivity|].
  by rewrite app_nil_r.
Qed.

(** X9: The compilation command is [vcs], the timescale option, the selected
    flags in the fixed order debug, coverage, full64, sverilog, the file
    list option, the sources in their order, and one [+incdir+] entry
    per include directory in their order. *)
Theorem vcs_compile_cmd_layout (self : Sim.ICSimulation) (args : Sim.VcsArgs.t) :
  Sim.vcs_compile_cmd self args =
    ["vcs"; "-timescale=" +:+ Sim.VcsArgs.timescale args]
    ++ (if Sim.VcsArgs.debug args then ["-debug_all"] else [])
    ++ (if Sim.VcsArgs.coverage args
        then Sim.VcsOptions.coverage_options (Sim.vcs_options self) else [])
    ++ (if Sim.VcsArgs.full64 args then ["-full64"] else [])
    ++ (if Sim.VcsArgs.sverilog args then ["-sverilog"] else [])
    ++ match Sim.VcsArgs.filelist args with
       | Some f => if decide (f = EmptyString) then [] else ["-f"; f]
       | None => []
       end
    ++ Sim.VcsArgs.sources args
    ++ match Sim.VcsArgs.includes args with
       | Some incs => map (fun inc => "+incdir+" +:+ inc) incs
       | None => []
       end.
Proof.
  unfold Sim.vcs_compile_cmd.
  assert (Hinc : forall cmd,
    match Sim.truthy_list (Sim.VcsArgs.includes args) with
    | Some incs => fold_left (fun c inc => c ++ ["+incdir+" +:+ inc]) incs cmd
    | None => cmd
    end = cmd ++ match Sim.VcsArgs.includes args with
                 | Some incs => map (fun inc => "+incdir+" +:+ inc) incs
                 | None => []
                 end).
  { intros cmd. destruct (Sim.VcsArgs.includes args) as [[|i incs]|]; cbn;
      rewrite ?app_nil_r; try reflexivity.
    rewrite (fold_left_snoc (fun inc => "+incdir+" +:+ inc)).
    by rewrite <- app_assoc. }
  rewrite Hinc, (fold_left_snoc (fun x => x)), map_id, extend_option_app.
  assert (Hf : match Sim.truthy_str (Sim.VcsArgs.filelist args) with
               | Some v => ["-f"; v] | None => [] end =
               match Sim.VcsArgs.filelist args with
               | Some f => if decide (f = EmptyString) then [] else ["-f"; f]
               | None => []
               end).
  { destruct (Sim.VcsArgs.filelist args) as [[|a f]|]; reflexivity. }
  rewrite Hf.
  destruct (Sim.VcsArgs.debug args), (Sim.VcsArgs.coverage args),
    (Sim.VcsArgs.full64 args), (Sim.VcsArgs.sverilog args);
    cbn [app]; rewrite <- ?app_assoc; cbn [app]; rewrite ?app_nil_r;
    reflexivity.
Qed.

(** X10: The debugger command is [verdi], then for each of mode, ssf, upf and
    file list that has a non-empty value the option and its value, in
    that order, then the sources in their order; an option given the
    empty string is left out like an absent one. *)
Theorem verdi_cmd_layout (args : Sim.VerdiArgs.t) :
  let opt flag value :=
    match value with
    | Some v => if decide (v = EmptyString) then [] else [flag; v]
    | None => []
    end in
  Sim.verdi_cmd args =
    ["verdi"]
    ++ opt "-mode" (Sim.VerdiArgs.mode args)
    ++ opt "-ssf" (Sim.VerdiArgs.ssf args)
    ++ opt "-upf" (Sim.VerdiArgs.upf args)
    ++ opt "-f" (Sim.VerdiArgs.filelist args)
    ++ Sim.VerdiArgs.sources args.
Proof.
  intros opt. unfold Sim.verdi_cmd.
  rewrite (fold_left_snoc (fun x => x)), map_id, !extend_option_app.
  assert (Hopt : forall flag value,
    match Sim.truthy_str value with Some v => [flag; v] | None => [] end =
    opt flag value).
  { intros flag [[|a v]|]; reflexivity. }
  rewrite !Hopt, <- !app_assoc. reflexivity.
Qed.

(** X11: The compilation is always launched, and first; the simulation is
    launched after it exactly when [-run] was given and the compilation
    exited with status 0.  Nothing else is launched. *)
Theorem run_vcs_launches {World : Type}
    (os_run : World -> list string -> Sim.ProcResult * World)
    (self : Sim.ICSimulation) (args : Sim.VcsArgs.t) (m : Sim.Machine World) :
  Sim.spawned (Sim.log (Sim.run_vcs os_run self args m).2) =
    Sim.spawned (Sim.log m)
    ++ Sim.vcs_compile_cmd self args
       :: match (os_run (Sim.world m) (Sim.vcs_compile_cmd self args)).1 with
          | Sim.Exited rc =>
              if Z.eqb rc 0 && Sim.VcsArgs.run args
              then [Sim.vcs_sim_cmd args] else []
          | Sim.NotStarted _ => []
          end.
Proof.
  run_wrapper.
  generalize (Sim.vcs_compile_cmd self args) as c.
  generalize (Sim.vcs_sim_cmd args) as s. intros s c.
  destruct (os_run (Sim.world m) c) as [[rc|e] w]; cbn [fst].
  - destruct (Z.eqb rc 0); cbn [andb].
    + destruct (Sim.VcsArgs.run args); cbn [Sim.world Sim.log].
      * destruct (os_run w s) as [[rc'|e'] w'];
          [destruct (Z.eqb rc' 0)|]; cbn [snd Sim.log];
          rewrite !spawned_app, <- ?app_assoc; reflexivity.
      * cbn [snd Sim.log]. rewrite !spawned_app, <- ?app_assoc. reflexivity.
    + cbn [snd Sim.log]. rewrite !spawned_app, <- ?app_assoc. reflexivity.
  - cbn [snd Sim.log]. rewrite !spawned_app, <- ?app_assoc. reflexivity.
Qed.

(** X12: [run_vcs] never lets a [CalledProcessError] escape.  When it ends
    with an exit, the status is 1 and the last thing it did was to
    report, on the error stream, a launched command that exited with a
    status other than 0. *)
Theorem run_vcs_exit_status {World : Type}
    (os_run : World -> list string -> Sim.ProcResult * World)
    (self : Sim.ICSimulation) (args : Sim.VcsArgs.t) (m : Sim.Machine World) :
  (forall rc cmd,
     (Sim.run_vcs os_run self args m).1 <> inl (Sim.CalledProcessError rc cmd)) /\
  (forall code,
     (Sim.run_vcs os_run self args m).1 = inl (Sim.SystemExit code) ->
     code = 1%Z /\
     exists front rc cmd,
       rc <> 0%Z /\
       (cmd = Sim.vcs_compile_cmd self args \/ cmd = Sim.vcs_sim_cmd args) /\
       Sim.log (Sim.run_vcs os_run self args m).2 =
         front ++ [Sim.Spawn cmd;
                   Sim.StderrError "Error in VCS execution: " rc cmd]).
Proof.
  run_wrapper.
  generalize (Sim.vcs_compile_cmd self args) as c.
  generalize (Sim.vcs_sim_cmd args) as s. intros s c.
  generalize ("Executing VCS compilation: " +:+ Str.join " " c) as ann_c.
  generalize ("Executing simulation: " +:+ Str.join " " s) as ann_s.
  intros ann_s ann_c.
  destruct (os_run (Sim.world m) c) as [[rc|e] w].
  - destruct (Z.eqb_spec rc 0) as [->|Hrc].
    + destruct (Sim.VcsArgs.run args); cbn [Sim.world Sim.log].
      * destruct (os_run w s) as [[rc'|e'] w'].
        -- destruct (Z.eqb_spec rc' 0) as [->|Hrc']; cbn [fst snd Sim.log].
           ++ split; [discriminate|]. discriminate.
           ++ split; [discriminate|]. intros code [= <-]. split; [reflexivity|].
              exists (Sim.log m ++ [Sim.Stdout ann_c; Sim.Spawn c; Sim.Stdout ann_s]),
                rc', s.
              split; [assumption|]. split; [by right|].
              rewrite <- !app_assoc. reflexivity.
        -- cbn [fst snd]. split; discriminate.
      * cbn [fst snd]. split; discriminate.
    + cbn [fst snd Sim.log]. split; [discriminate|].
      intros code [= <-]. split; [reflexivity|].
      exists (Sim.log m ++ [Sim.Stdout ann_c]), rc, c.
      split; [assumption|]. split; [by left|].
      rewrite <- !app_assoc. reflexivity.
  - cbn [fst snd]. split; discriminate.
Qed.

(** The whole of [run_vcs], case by case on what the launches answer. *)
Lemma run_vcs_eq {World : Type}
    (os_run : World -> list string -> Sim.ProcResult * World)
    (self : Sim.ICSimulation) (args : Sim.VcsArgs.t) (m : Sim.Machine World) :
  let c := Sim.vcs_compile_cmd self args in
  let s := Sim.vcs_sim_cmd args in
  let ann_c := Sim.Stdout ("Executing VCS compilation: " +:+ Str.join " " c) in
  let ann_s := Sim.Stdout ("Executing simulation: " +:+ Str.join " " s) in
  let report rc cmd := Sim.StderrError "Error in VCS execution: " rc cmd in
  Sim.run_vcs os_run self args m =
  match os_run (Sim.world m) c with
  | (Sim.NotStarted e, w) =>
      (inl (Sim.LaunchError e), Sim.Build_Machine w (Sim.log m ++ [ann_c; Sim.Spawn c]))
  | (Sim.Exited rc, w) =>
      if Z.eqb rc 0 then
        if Sim.VcsArgs.run args then
          match os_run w s with
          | (Sim.NotStarted e, w') =>
              (inl (Sim.LaunchError e),
               Sim.Build_Machine w'
                 (Sim.log m ++ [ann_c; Sim.Spawn c; ann_s; Sim.Spawn s]))
          | (Sim.Exited rc', w') =>
              if Z.eqb rc' 0 then
                (inr tt,
                 Sim.Build_Machine w'
                   (Sim.log m ++ [ann_c; Sim.Spawn c; ann_s; Sim.Spawn s]))
              else
                (inl (Sim.SystemExit 1),
                 Sim.Build_Machine w'
                   (Sim.log m ++ [ann_c; Sim.Spawn c; ann_s; Sim.Spawn s; report rc' s]))
          end
        else (inr tt, Sim.Build_Machine w (Sim.log m ++ [ann_c; Sim.Spawn c]))
      else
        (inl (Sim.SystemExit 1),
         Sim.Build_Machine w (Sim.log m ++ [ann_c; Sim.Spawn c; report rc c]))
  end.
Proof.
  intros c s ann_c ann_s report. subst ann_c ann_s report.
  run_wrapper. fold c s.
  generalize ("Executing VCS compilation: " +:+ Str.join " " c) as tc.
  generalize ("Executing simulation: " +:+ Str.join " " s) as ts.
  generalize c s. clear c s. intros c s ts tc.
  destruct (os_run (Sim.world m) c) as [[rc|e] w].
  - destruct (Z.eqb rc 0).
    + destruct (Sim.VcsArgs.run args); cbn [Sim.world Sim.log].
      * destruct (os_run w s) as [[rc'|e'] w']; [destruct (Z.eqb rc' 0)|];
          cbn [Sim.world Sim.log]; rewrite <- !app_assoc; reflexivity.
      * rewrite <- !app_assoc. reflexivity.
    + cbn [Sim.world Sim.log]. rewrite <- !app_assoc. reflexivity.
  - rewrite <- !app_assoc. reflexivity.
Qed.

Lemma run_verdi_eq {World : Type}
    (os_run : World -> list string -> Sim.ProcResult * World)
    (self : Sim.ICSimulation) (args : Sim.VerdiArgs.t) (m : Sim.Machine World) :
  let c := Sim.verdi_cmd args in
  let ann := Sim.Stdout ("Launching Verdi: " +:+ Str.join " " c) in
  Sim.run_verdi os_run self args m =
  match os_run (Sim.world m) c with
  | (Sim.NotStarted e, w) =>
      (inl (Sim.LaunchError e), Sim.Build_Machine w (Sim.log m ++ [ann; Sim.Spawn c]))
  | (Sim.Exited rc, w) =>
      if Z.eqb rc 0
      then (inr tt, Sim.Build_Machine w (Sim.log m ++ [ann; Sim.Spawn c]))
      else (inl (Sim.SystemExit 1),
            Sim.Build_Machine w
              (Sim.log m ++ [ann; Sim.Spawn c;
                             Sim.StderrError "Error launching Verdi: " rc c]))
  end.
Proof.
  intros c ann. subst ann. run_wrapper. fold c.
  generalize ("Launching Verdi: " +:+ Str.join " " c) as tc.
  generalize c. clear c. intros c tc.
  destruct (os_run (Sim.world m) c) as [[rc|e] w]; [destruct (Z.eqb rc 0)|];
    cbn [Sim.world Sim.log]; rewrite <- !app_assoc; reflexivity.
Qed.

(** X13: When the compilation exits with a status other than 0, [run_vcs]
    announces and launches the compilation, reports the failure on the
    error stream and ends with exit status 1; the simulation is not
    launched, [-run] or not. *)
Theorem run_vcs_compile_failure {World : Type}
    (os_run : World -> list string -> Sim.ProcResult * World)
    (self : Sim.ICSimulation) (args : Sim.VcsArgs.t) (m : Sim.Machine World)
    (rc : Z) (w : World) :
  os_run (Sim.world m) (Sim.vcs_compile_cmd self args) = (Sim.Exited rc, w) ->
  rc <> 0%Z ->
  Sim.run_vcs os_run self args m =
    (inl (Sim.SystemExit 1),
     Sim.Build_Machine w
       (Sim.log m ++
        [ Sim.Stdout ("Executing VCS compilation: "
                      +:+ Str.join " " (Sim.vcs_compile_cmd self args));
          Sim.Spawn (Sim.vcs_compile_cmd self args);
          Sim.StderrError "Error in VCS execution: " rc
            (Sim.vcs_compile_cmd self args) ])).
Proof.
  intros Hos Hrc. rewrite run_vcs_eq. cbv zeta. rewrite Hos.
  destruct (Z.eqb_spec rc 0); [contradiction|reflexivity].
Qed.

Lemma run_vcs_compile_failure_witness :
  Sim.run_vcs SimExamples.failing_os Sim.init SimExamples.vcs_args
    SimExamples.start =
    (inl (Sim.SystemExit 1),
     Sim.Build_Machine 1
       [ Sim.Stdout ("Executing VCS compilation: vcs -timescale=1ns/1ps "
                     +:+ "-debug_all -full64 -sverilog top.sv tb.sv +incdir+inc");
         Sim.Spawn ["vcs"; "-timescale=1ns/1ps"; "-debug_all"; "-full64";
                    "-sverilog"; "top.sv"; "tb.sv"; "+incdir+inc"];
         Sim.StderrError "Error in VCS execution: " 2
           ["vcs"; "-timescale=1ns/1ps"; "-debug_all"; "-full64";
            "-sverilog"; "top.sv"; "tb.sv"; "+incdir+inc"] ]).
Proof.
  apply (run_vcs_compile_failure SimExamples.failing_os Sim.init
           SimExamples.vcs_args SimExamples.start 2 1).
  - reflexivity.
  - lia.
Defined.

(** X14: With [-run], when the compilation and then the simulation exit with
    status 0, [run_vcs] returns normally; each launch was announced on
    the standard output with the very arguments it was given, the
    simulation was started in the world the compilation left, and
    nothing was written to the error stream. *)
Theorem run_vcs_full_run {World : Type}
    (os_run : World -> list string -> Sim.ProcResult * World)
    (self : Sim.ICSimulation) (args : Sim.VcsArgs.t) (m : Sim.Machine World)
    (w w' : World) :
  Sim.VcsArgs.run args = true ->
  os_run (Sim.world m) (Sim.vcs_compile_cmd self args) = (Sim.Exited 0, w) ->
  os_run w (Sim.vcs_sim_cmd args) = (Sim.Exited 0, w') ->
  Sim.run_vcs os_run self args m =
    (inr tt,
     Sim.Build_Machine w'
       (Sim.log m ++
        [ Sim.Stdout ("Executing VCS compilation: "
                      +:+ Str.join " " (Sim.vcs_compile_cmd self args));
          Sim.Spawn (Sim.vcs_compile_cmd self args);
          Sim.Stdout ("Executing simulation: "
                      +:+ Str.join " " (Sim.vcs_sim_cmd args));
          Sim.Spawn (Sim.vcs_sim_cmd args) ])).
Proof.
  intros Hrun Hc Hs. rewrite run_vcs_eq. cbv zeta.
  rewrite Hc, Hrun, Hs. reflexivity.
Qed.

Lemma run_vcs_full_run_witness :
  Sim.run_vcs SimExamples.healthy_os Sim.init SimExamples.vcs_args
    SimExamples.start =
    (inr tt,
     Sim.Build_Machine 2
       [ Sim.Stdout ("Executing VCS compilation: vcs -timescale=1ns/1ps "
                     +:+ "-debug_all -full64 -sverilog top.sv tb.sv +incdir+inc");
         Sim.Spawn ["vcs"; "-timescale=1ns/1ps"; "-debug_all"; "-full64";
                    "-sverilog"; "top.sv"; "tb.sv"; "+incdir+inc"];
         Sim.Stdout "Executing simulation: ./simv +seed=1";
         Sim.Spawn ["./simv"; "+seed=1"] ]).
Proof.
  apply (run_vcs_full_run SimExamples.healthy_os Sim.init
           SimExamples.vcs_args SimExamples.start 1 2); reflexivity.
Defined.

(** X16: [run_verdi] launches the debugger exactly once.  It returns
    normally exactly when the debugger exits with status 0, ends with
    exit status 1 exactly when it exits with another status, and lets
    the launch error through exactly when it cannot be started. *)
Theorem run_verdi_outcome {World : Type}
    (os_run : World -> list string -> Sim.ProcResult * World)
    (self : Sim.ICSimulation) (args : Sim.VerdiArgs.t) (m : Sim.Machine World) :
  let answer := (os_run (Sim.world m) (Sim.verdi_cmd args)).1 in
  let outcome := (Sim.run_verdi os_run self args m).1 in
  Sim.spawned (Sim.log (Sim.run_verdi os_run self args m).2) =
    Sim.spawned (Sim.log m) ++ [Sim.verdi_cmd args] /\
  (outcome = inr tt <-> answer = Sim.Exited 0) /\
  (forall code,
     outcome = inl (Sim.SystemExit code) <->
     code = 1%Z /\ exists rc, rc <> 0%Z /\ answer = Sim.Exited rc) /\
  (forall e, outcome = inl (Sim.LaunchError e) <-> answer = Sim.NotStarted e) /\
  (forall rc cmd, outcome <> inl (Sim.CalledProcessError rc cmd)).
Proof.
  intros answer outcome. subst answer outcome.
  rewrite run_verdi_eq. cbv zeta.
  generalize ("Launching Verdi: " +:+ Str.join " " (Sim.verdi_cmd args)) as tc.
  generalize (Sim.verdi_cmd args) as c. intros c tc.
  destruct (os_run (Sim.world m) c) as [[rc|e] w]; cbn [fst];
    [destruct (Z.eqb_spec rc 0) as [->|Hrc]|];
    cbn [fst snd Sim.log]; rewrite spawned_app; cbn [Sim.spawned];
    (split; [reflexivity|]); repeat split; try discriminate;
    naive_solver.
Qed.

(** X17: When the parser finds no subcommand, [main] prints the help text and
    ends with exit status 1: nothing is launched and the world is left
    as it was. *)
Theorem main_without_tool {World : Type}
    (os_run : World -> list string -> Sim.ProcResult * World)
    (parse_args : Sim.ICSimulation -> list string ->
                  list Sim.Event * (Z + Sim.Namespace))
    (self : Sim.ICSimulation) (argv : list string) (m : Sim.Machine World)
    (printed : list Sim.Event) :
  parse_args self argv = (printed, inr Sim.NoTool) ->
  Sim.main os_run parse_args self argv m =
    (inl (Sim.SystemExit 1),
     Sim.Build_Machine (Sim.world m) (Sim.log m ++ printed ++ [Sim.PrintHelp])).
Proof.
  intros Hparse. unfold Sim.main. rewrite Hparse.
  unfold Sim.io_bind, Sim.emit, Sim.sys_exit, Sim.io_raise.
  cbn [Sim.world Sim.log]. by rewrite <- app_assoc.
Qed.

Lemma main_without_tool_witness :
  Sim.main SimExamples.healthy_os SimExamples.parser_no_tool Sim.init []
    SimExamples.start =
    (inl (Sim.SystemExit 1), Sim.Build_Machine 0 [Sim.PrintHelp]).
Proof.
  apply (main_without_tool SimExamples.healthy_os SimExamples.parser_no_tool
           Sim.init [] SimExamples.start []).
  reflexivity.
Defined.

(** X18: Whatever the parser returns and whatever the launches answer, [main]
    starts at most two processes beyond what the parser itself logged,
    and never ends with an uncaught [CalledProcessError]. *)
Theorem main_launch_bound {World : Type}
    (os_run : World -> list string -> Sim.ProcResult * World)
    (parse_args : Sim.ICSimulation -> list string ->
                  list Sim.Event * (Z + Sim.Namespace))
    (self : Sim.ICSimulation) (argv : list string) (m : Sim.Machine World) :
  (exists launched,
     Sim.spawned (Sim.log (Sim.main os_run parse_args self argv m).2) =
       Sim.spawned (Sim.log m ++ (parse_args self argv).1) ++ launched /\
     length launched <= 2) /\
  (forall rc cmd,
     (Sim.main os_run parse_args self argv m).1 <>
       inl (Sim.CalledProcessError rc cmd)).
Proof.
  unfold Sim.main.
  destruct (parse_args self argv) as [printed [code|[|vargs|dargs]]];
    unfold Sim.io_bind, Sim.emit; cbn [fst].
  - unfold Sim.sys_exit, Sim.io_raise. cbn [fst snd Sim.log Sim.world].
    split; [|discriminate]. exists []. rewrite app_nil_r. split; [reflexivity|].
    cbn. lia.
  - unfold Sim.io_bind, Sim.emit, Sim.sys_exit, Sim.io_raise.
    cbn [fst snd Sim.log Sim.world].
    split; [|discriminate]. exists []. rewrite !spawned_app, app_nil_r.
    cbn [Sim.spawned]. rewrite app_nil_r. split; [reflexivity|]. cbn. lia.
  - rewrite run_vcs_eq. cbv zeta. cbn [Sim.world Sim.log].
    generalize ("Executing VCS compilation: "
                +:+ Str.join " " (Sim.vcs_compile_cmd self vargs)) as tc.
    generalize ("Executing simulation: "
                +:+ Str.join " " (Sim.vcs_sim_cmd vargs)) as ts.
    generalize (Sim.vcs_compile_cmd self vargs) as c.
    generalize (Sim.vcs_sim_cmd vargs) as s. intros s c ts tc.
    destruct (os_run (Sim.world m) c) as [[rc|e] w];
      try destruct (Z.eqb rc 0);
      destruct (Sim.VcsArgs.run vargs);
      destruct (os_run w s) as [[rc'|e'] w']; try destruct (Z.eqb rc' 0);
      cbn [fst snd Sim.log]; (split; [|discriminate]);
      rewrite (spawned_app (Sim.log m ++ printed)); cbn [Sim.spawned];
      eexists; (split; [reflexivity|]); cbn; lia.
  - rewrite run_verdi_eq. cbv zeta. cbn [Sim.world Sim.log].
    generalize ("Launching Verdi: " +:+ Str.join " " (Sim.verdi_cmd dargs)) as tc.
    generalize (Sim.verdi_cmd dargs) as c. intros c tc.
    destruct (os_run (Sim.world m) c) as [[rc|e] w]; [destruct (Z.eqb rc 0)|];
      cbn [fst snd Sim.log]; (split; [|discriminate]);
      rewrite (spawned_app (Sim.log m ++ printed)); cbn [Sim.spawned];
      eexists; (split; [reflexivity|]); cbn; lia.
Qed.

(** * More on the constraint generator *)

Lemma recorded_none_iff (rows : list (list string)) :
  last (omap record_of rows) = None <-> Forall (fun row => length row < 4) rows.
Proof.
  rewrite last_None. induction rows as [|row rows IH]; cbn.
  - split; [constructor|reflexivity].
  - destruct (decide (accepted row)) as [Hacc|Hshort].
    + destruct (record_of_accepted _ Hacc) as (a & b & c & d & tl & ->). cbn.
      split; [discriminate|]. intros H. apply Forall_cons in H as [H _].
      cbn in H. lia.
    + rewrite (record_of_short _ Hshort). rewrite IH.
      unfold accepted in Hshort. split.
      * intros H. constructor; [lia|assumption].
      * intros H. by apply Forall_cons in H as [_ H].
Qed.

(** X1: The call returns a document exactly when the reader does not fail
    and some row has four fields or more; the connector map plays no
    part in this. *)
Theorem generate_returns_iff
    (reader : string -> ReaderTrace) (csv_data : string) (cm : ConnectorMap) :
  (exists doc, (generate_vivado_io reader csv_data cm).1 = inr doc) <->
  failure (reader csv_data) = None /\
  Exists (fun row => 4 <= length row) (rows (reader csv_data)).
Proof.
  rewrite generate_vivado_io_eq. cbn [fst]. unfold document_for.
  pose proof (recorded_none_iff (rows (reader csv_data))) as Hnone.
  destruct (failure (reader csv_data)) as [e|].
  - split; [intros [doc [=]]|intros [[=] _]].
  - destruct (last (omap record_of (rows (reader csv_data)))) as [m|].
    + split; [|eauto]. intros _. split; [reflexivity|].
      destruct (decide (Exists (fun row : list string => 4 <= length row)
                               (rows (reader csv_data)))) as [Hex|Hno];
        [exact Hex|].
      apply Forall_Exists_neg in Hno.
      assert (Hshort : Forall (fun row : list string => length row < 4)
                              (rows (reader csv_data))).
      { eapply Forall_impl; [exact Hno|]. intros row Hrow. cbn in Hrow. lia. }
      apply Hnone in Hshort. discriminate.
    + split; [intros [doc [=]]|]. intros [_ Hex].
      assert (Hall : Forall (fun row : list string => length row < 4)
                            (rows (reader csv_data)))
        by by apply Hnone.
      apply Exists_exists in Hex as (row & Hin & Hlen).
      rewrite Forall_forall in Hall. specialize (Hall row Hin). lia.
Qed.

(** X2: The call ends with an exception [e] in two cases only: the reader
    failed with [e] (whatever rows came before, whatever the map), or
    the reader did not fail, no row has four fields and [e] is the
    unbound-local error on [connector]. *)
Theorem generate_raises_iff
    (reader : string -> ReaderTrace) (csv_data : string) (cm : ConnectorMap)
    (e : PyExc) :
  (generate_vivado_io reader csv_data cm).1 = inl e <->
  failure (reader csv_data) = Some e \/
  (failure (reader csv_data) = None /\
   Forall (fun row => length row < 4) (rows (reader csv_data)) /\
   e = UnboundLocalError "connector").
Proof.
  rewrite generate_vivado_io_eq. cbn [fst]. unfold document_for.
  pose proof (recorded_none_iff (rows (reader csv_data))) as Hnone.
  destruct (failure (reader csv_data)) as [e'|].
  - split.
    + intros [= ->]. by left.
    + intros [[= ->]|[[=] _]]. reflexivity.
  - destruct (last (omap record_of (rows (reader csv_data)))) as [m|].
    + split; [discriminate|]. intros [[=]|(_ & Hall & _)].
      apply Hnone in Hall. discriminate.
    + split.
      * intros [= <-]. right. repeat split. by apply Hnone.
      * intros [[=]|(_ & _ & ->)]. reflexivity.
Qed.

Lemma append_assoc (a b c : string) : (a +:+ b) +:+ c = a +:+ b +:+ c.
Proof.
  induction a as [|x a IH]; [reflexivity|].
  by rewrite !append_cons, IH.
Qed.

(** X3: Every document the call returns begins with the two header lines
    followed by an empty line, and ends with a line feed. *)
Theorem document_frame
    (reader : string -> ReaderTrace) (csv_data : string) (cm : ConnectorMap)
    (doc : string) :
  (generate_vivado_io reader csv_data cm).1 = inr doc ->
  exists body,
    doc = "# Automatically generated Vivado constraints file" +:+ Str.nl
          +:+ "# Generated from I/O mapping CSV data" +:+ Str.nl
          +:+ Str.nl +:+ body +:+ Str.nl.
Proof.
  rewrite generate_vivado_io_eq. cbn [fst]. unfold document_for.
  destruct (failure (reader csv_data)); [discriminate|].
  destruct (last _) as [m|]; [|discriminate].
  intros [= <-]. unfold block_of.
  destruct (resolve cm _ _) as [info|].
  - exists (comment_line (Mapping.io_name m) (Mapping.prodigy_connector m)
              (Mapping.pin_no m) (pin_desc info) (bank info)
            +:+ Str.nl +:+ package_pin_line (fpga_pin info) (Mapping.io_name m)
            +:+ Str.nl +:+ iostandard_line (Mapping.io_voltage m) (Mapping.io_name m)).
    cbn [header resolved_block app Str.join].
    rewrite !append_assoc, append_empty_r. reflexivity.
  - exists (error_line (Mapping.io_name m) (Mapping.prodigy_connector m)
              (Mapping.pin_no m)).
    cbn [header error_block app Str.join].
    rewrite !append_assoc, append_empty_r. reflexivity.
Qed.

Lemma document_frame_witness :
  exists body,
    Str.join Str.nl
      (header ++ resolved_block "CLK_IN" "J1" "A1" "3.3V" Examples.clock_input) =
    "# Automatically generated Vivado constraints file" +:+ Str.nl
    +:+ "# Generated from I/O mapping CSV data" +:+ Str.nl
    +:+ Str.nl +:+ body +:+ Str.nl.
Proof.
  apply (document_frame Csv.excel_reader Examples.one_clock Examples.board).
  vm_compute. reflexivity.
Defined.

Lemma resolve_insert_eq (cm : ConnectorMap) (pins : gmap string PinInfo)
    (conn pos : string) (info : PinInfo) :
  resolve (<[conn := <[pos := info]> pins]> cm) conn pos = Some info.
Proof. unfold resolve. by rewrite !lookup_insert_eq. Qed.

Lemma resolve_insert_other (cm : ConnectorMap) (pins : gmap string PinInfo)
    (other conn pos : string) :
  other <> conn ->
  resolve (<[other := pins]> cm) conn pos = resolve cm conn pos.
Proof. intros Hne. unfold resolve. by rewrite lookup_insert_ne. Qed.

Lemma resolve_delete_other (cm : ConnectorMap) (other conn pos : string) :
  other <> conn ->
  resolve (delete other cm) conn pos = resolve cm conn pos.
Proof. intros Hne. unfold resolve. by rewrite lookup_delete_ne. Qed.

Lemma generate_with_last
    (reader : string -> ReaderTrace) (csv_data : string) (cm : ConnectorMap)
    (name conn pos io : string) (extra : list string) :
  last (filter accepted (rows (reader csv_data))) =
    Some (name :: conn :: pos :: io :: extra) ->
  (generate_vivado_io reader csv_data cm).1 =
    match failure (reader csv_data) with
    | Some e => inl e
    | None =>
        inr (Str.join Str.nl
               (header ++
                match resolve cm conn pos with
                | Some info => resolved_block name conn pos io info
                | None => error_block name conn pos
                end))
    end.
Proof.
  intros Hlast. rewrite generate_vivado_io_eq. cbn [fst].
  destruct (failure (reader csv_data)); [reflexivity|].
  unfold document_for. by rewrite (last_recorded _ _ _ _ _ _ Hlast).
Qed.

(** X4: The connector map matters only through the lookup of the last
    record of four fields or more: two maps that give the same answer
    for its (connector, position) pair give the same outcome. *)
Theorem document_depends_on_last_pair
    (reader : string -> ReaderTrace) (csv_data : string) (cm cm' : ConnectorMap)
    (name conn pos io : string) (extra : list string) :
  last (filter accepted (rows (reader csv_data))) =
    Some (name :: conn :: pos :: io :: extra) ->
  resolve cm conn pos = resolve cm' conn pos ->
  (generate_vivado_io reader csv_data cm).1 =
  (generate_vivado_io reader csv_data cm').1.
Proof.
  intros Hlast Hres.
  rewrite !(generate_with_last _ _ _ _ _ _ _ _ Hlast). by rewrite Hres.
Qed.

Lemma document_depends_on_last_pair_witness :
  (generate_vivado_io Csv.excel_reader Examples.two_resolved Examples.board).1 =
  (generate_vivado_io Csv.excel_reader Examples.two_resolved
     {[ "J1" := {[ "A2" := Examples.data_out ]} ]}).1.
Proof.
  apply (document_depends_on_last_pair Csv.excel_reader Examples.two_resolved
           Examples.board {[ "J1" := {[ "A2" := Examples.data_out ]} ]}
           "DATA" "J1" "A2" "1.8V" []); vm_compute; reflexivity.
Defined.

(** X5: Entries of connectors other than the last record's do not matter:
    adding or replacing such a connector, or deleting it, leaves the
    outcome as it was. *)
Theorem other_connectors_irrelevant
    (reader : string -> ReaderTrace) (csv_data : string) (cm : ConnectorMap)
    (name conn pos io : string) (extra : list string)
    (other : string) (pins : gmap string PinInfo) :
  last (filter accepted (rows (reader csv_data))) =
    Some (name :: conn :: pos :: io :: extra) ->
  other <> conn ->
  (generate_vivado_io reader csv_data (<[other := pins]> cm)).1 =
    (generate_vivado_io reader csv_data cm).1 /\
  (generate_vivado_io reader csv_data (delete other cm)).1 =
    (generate_vivado_io reader csv_data cm).1.
Proof.
  intros Hlast Hne.
  rewrite !(generate_with_last _ _ _ _ _ _ _ _ Hlast).
  by rewrite resolve_insert_other, resolve_delete_other.
Qed.

Lemma other_connectors_irrelevant_witness :
  (generate_vivado_io Csv.excel_reader Examples.two_resolved
     (<["J7" := ∅]> Examples.board)).1 =
    (generate_vivado_io Csv.excel_reader Examples.two_resolved Examples.board).1 /\
  (generate_vivado_io Csv.excel_reader Examples.two_resolved
     (delete "J7" Examples.board)).1 =
    (generate_vivado_io Csv.excel_reader Examples.two_resolved Examples.board).1.
Proof.
  apply (other_connectors_irrelevant Csv.excel_reader Examples.two_resolved
           Examples.board "DATA" "J1" "A2" "1.8V" [] "J7" ∅).
  - vm_compute. reflexivity.
  - discriminate.
Defined.

(** X6: Entering the pin of the last record into the map, at its connector
    and position, makes the call return that record's resolved block
    with the pin entered, whatever the map held before. *)
Theorem entered_pin_is_used
    (reader : string -> ReaderTrace) (csv_data : string) (cm : ConnectorMap)
    (name conn pos io : string) (extra : list string) (info : PinInfo) :
  failure (reader csv_data) = None ->
  last (filter accepted (rows (reader csv_data))) =
    Some (name :: conn :: pos :: io :: extra) ->
  (generate_vivado_io reader csv_data
     (<[conn := <[pos := info]> (default ∅ (cm !! conn))]> cm)).1 =
    inr (Str.join Str.nl (header ++ resolved_block name conn pos io info)).
Proof.
  intros Hfail Hlast.
  rewrite (generate_with_last _ _ _ _ _ _ _ _ Hlast), Hfail.
  by rewrite resolve_insert_eq.
Qed.

Lemma entered_pin_is_used_witness :
  (generate_vivado_io Csv.excel_reader MoreExamples.reset_only
     (<["J2" := <["B4" := MoreExamples.reset_pin]>
                  (default ∅ (Examples.board !! "J2"))]> Examples.board)).1 =
    inr (Str.join Str.nl
           (header ++ resolved_block "RST" "J2" "B4" "1.8V" MoreExamples.reset_pin)).
Proof.
  apply (entered_pin_is_used Csv.excel_reader MoreExamples.reset_only
           Examples.board "RST" "J2" "B4" "1.8V" [] MoreExamples.reset_pin);
    vm_compute; reflexivity.
Defined.

Lemma iostandard_line_unit (io name : string) :
  iostandard_line (io +:+ "V") name = iostandard_line io name.
Proof.
  unfold iostandard_line. rewrite remove_char_append.
  change (Str.remove_char "V" "V") with EmptyString.
  by rewrite append_empty_r.
Qed.

(** X7: The unit marker is optional: a table whose last record gives the
    voltage as [io] and a table whose last record gives it as [io]
    followed by V, the other three fields being the same, have the same
    outcome. *)
Theorem unit_marker_optional
    (reader : string -> ReaderTrace) (csv_data csv_data' : string)
    (cm : ConnectorMap) (name conn pos io : string) (extra extra' : list string) :
  failure (reader csv_data) = failure (reader csv_data') ->
  last (filter accepted (rows (reader csv_data))) =
    Some (name :: conn :: pos :: io :: extra) ->
  last (filter accepted (rows (reader csv_data'))) =
    Some (name :: conn :: pos :: (io +:+ "V") :: extra') ->
  (generate_vivado_io reader csv_data cm).1 =
  (generate_vivado_io reader csv_data' cm).1.
Proof.
  intros Hfail Hlast Hlast'.
  rewrite (generate_with_last _ _ _ _ _ _ _ _ Hlast),
    (generate_with_last _ _ _ _ _ _ _ _ Hlast'), Hfail.
  unfold resolved_block. by rewrite iostandard_line_unit.
Qed.

Lemma unit_marker_optional_witness :
  (generate_vivado_io Csv.excel_reader MoreExamples.clock_without_unit
     Examples.board).1 =
  (generate_vivado_io Csv.excel_reader Examples.one_clock Examples.board).1.
Proof.
  apply (unit_marker_optional Csv.excel_reader MoreExamples.clock_without_unit
           Examples.one_clock Examples.board "CLK_IN" "J1" "A1" "3.3" [] []);
    vm_compute; reflexivity.
Defined.



(** X15: [run_vcs] returns normally exactly when the compilation exits with
    status 0 and, if [-run] was given, the simulation, started in the
    world the compilation left, exits with status 0 as well. *)
Theorem run_vcs_returns_iff {World : Type}
    (os_run : World -> list string -> Sim.ProcResult * World)
    (self : Sim.ICSimulation) (args : Sim.VcsArgs.t) (m : Sim.Machine World) :
  let compiled := os_run (Sim.world m) (Sim.vcs_compile_cmd self args) in
  (Sim.run_vcs os_run self args m).1 = inr tt <->
  compiled.1 = Sim.Exited 0 /\
  (Sim.VcsArgs.run args = true ->
   (os_run compiled.2 (Sim.vcs_sim_cmd args)).1 = Sim.Exited 0).
Proof.
  intros compiled. subst compiled. rewrite run_vcs_eq. cbv zeta.
  generalize ("Executing VCS compilation: "
              +:+ Str.join " " (Sim.vcs_compile_cmd self args)) as tc.
  generalize ("Executing simulation: "
              +:+ Str.join " " (Sim.vcs_sim_cmd args)) as ts.
  generalize (Sim.vcs_compile_cmd self args) as c.
  generalize (Sim.vcs_sim_cmd args) as s. intros s c ts tc.
  destruct (os_run (Sim.world m) c) as [[rc|e] w]; cbn [fst snd].
  - destruct (Z.eqb_spec rc 0) as [->|Hrc].
    + destruct (Sim.VcsArgs.run args).
      * destruct (os_run w s) as [[rc'|e'] w']; cbn [fst].
        -- destruct (Z.eqb_spec rc' 0) as [->|Hrc']; cbn [fst].
           ++ split; [|reflexivity]. intros _. split; reflexivity.
           ++ split; [discriminate|]. intros [_ H].
              specialize (H eq_refl). congruence.
        -- split; [discriminate|]. intros [_ H]. specialize (H eq_refl).
           discriminate.
      * cbn [fst]. split; [|reflexivity]. intros _. split; [reflexivity|].
        discriminate.
    + cbn [fst]. split; [discriminate|]. intros [H _]. congruence.
  - split; [discriminate|]. intros [H _]. discriminate.
Qed.
